(** * MusicBrainz API client ([src/client.ts]): request dispatch and rate limiting

    A shallow embedding of the class [MusicBrainzClient] together with the
    parts of the JavaScript platform its methods call ([parseInt],
    [Array.prototype.join], [Headers.get], [URLSearchParams], the [search]
    setter of [URL], promises and [delay]).

    Conventions.
    - A JavaScript string is a [string]; every character is one code unit
      below 256 (header values are byte strings, query text is taken as the
      bytes that the serializer percent-encodes).
    - A JavaScript number holding an integer (a status code, [Date.now()],
      the result of [parseInt]) is a [Z]; [NaN] is [None].
    - Time is a logical clock in milliseconds; code between two [await]s
      runs atomically, as on the single-threaded event loop. *)

From Stdlib Require Import ZArith List String Ascii Bool Lia.
From Stdlib Require Import Numbers.DecimalString.
From Stdlib Require Import Numbers.DecimalPos.
Import ListNotations.

Open Scope string_scope.
Open Scope Z_scope.

(* ===================================================================== *)
(** ** The platform                                                       *)
(* ===================================================================== *)

Module Js.

(** *** Strings and arrays of strings *)

(** [Array.prototype.join]: the elements separated by [sep]; the empty
    array gives the empty string. *)
Fixpoint join (sep : string) (xs : list string) : string :=
  match xs with
  | [] => EmptyString
  | [x] => x
  | x :: rest => x ++ sep ++ join sep rest
  end.

Definition code (c : ascii) : Z := Z.of_nat (nat_of_ascii c).

Definition in_range (lo hi : Z) (c : ascii) : bool :=
  (lo <=? code c) && (code c <=? hi).

Definition is_digit (c : ascii) : bool := in_range 48 57 c.
Definition is_upper (c : ascii) : bool := in_range 65 90 c.
Definition is_lower (c : ascii) : bool := in_range 97 122 c.
Definition is_alnum (c : ascii) : bool := is_digit c || is_upper c || is_lower c.

(** Byte-lowercasing, as used to compare header names. *)
Definition lower_char (c : ascii) : ascii :=
  if is_upper c then ascii_of_nat (nat_of_ascii c + 32) else c.

Fixpoint lower (s : string) : string :=
  match s with
  | EmptyString => EmptyString
  | String c r => String (lower_char c) (lower r)
  end.

(** A string used as a condition is truthy when it is not empty; [null]
    ([None]) is falsy. *)
Definition truthy (v : option string) : bool :=
  match v with
  | Some EmptyString => false
  | Some _ => true
  | None => false
  end.

(** *** [parseInt] with no radix argument *)

(** White space and line terminators among the code units below 256. *)
Definition is_space (c : ascii) : bool :=
  in_range 9 13 c || (code c =? 32) || (code c =? 160).

Fixpoint trim_start (s : string) : string :=
  match s with
  | EmptyString => EmptyString
  | String c r => if is_space c then trim_start r else s
  end.

Definition digit_value (c : ascii) : option Z :=
  if is_digit c then Some (code c - 48)
  else if is_lower c then Some (code c - 87)
  else if is_upper c then Some (code c - 55)
  else None.

(** The value of the longest prefix of radix-[r] digits; [acc] is [None]
    as long as no digit was read. *)
Fixpoint read_digits (r : Z) (s : string) (acc : option Z) : option Z :=
  match s with
  | EmptyString => acc
  | String c rest =>
      match digit_value c with
      | Some d =>
          if d <? r
          then read_digits r rest
                 (Some (match acc with Some a => a * r + d | None => d end))
          else acc
      | None => acc
      end
  end.

Definition strip_sign (s : string) : Z * string :=
  match s with
  | String "-" r => (-1, r)
  | String "+" r => (1, r)
  | _ => (1, s)
  end.

Definition strip_hex_prefix (s : string) : Z * string :=
  match s with
  | String "0" (String "x" r) => (16, r)
  | String "0" (String "X" r) => (16, r)
  | _ => (10, s)
  end.

(** The mathematical integer that [parseInt(s)] denotes, [None] for [NaN].
    The JavaScript result is that integer rounded to a double; the client
    only tests it against zero and takes the sign of
    [parseInt(s) * 1000 - Date.now()], and rounding to nearest is monotone
    and exact on [Date.now()], so neither test sees the rounding. The
    difference itself is exact whenever it is a delay the timer can wait
    for, the clock being in the range of [Date.now()]. *)
Definition parseInt (s : string) : option Z :=
  let '(sign, s1) := strip_sign (trim_start s) in
  let '(radix, s2) := strip_hex_prefix s1 in
  match read_digits radix s2 None with
  | Some n => Some (sign * n)
  | None => None
  end.

(** [ToString] of a string or [null]. *)
Definition text (v : option string) : string :=
  match v with
  | Some s => s
  | None => "null"
  end.

(** Arithmetic and comparisons on numbers that may be [NaN]: every
    comparison with [NaN] is false. *)
Definition Number := option Z.

Definition times (a : Number) (k : Z) : Number := option_map (fun x => x * k) a.
Definition minus (a : Number) (k : Z) : Number := option_map (fun x => x - k) a.

Definition is_zero (a : Number) : bool :=
  match a with
  | Some x => x =? 0
  | None => false
  end.

(** *** Response headers *)

Definition Headers := list (string * string).

Definition matching (name : string) (h : Headers) : list string :=
  map snd (filter (fun kv => String.eqb (lower (fst kv)) (lower name)) h).

(** [Headers.prototype.get]: names compare byte-case-insensitively, the
    values of all matching headers are combined with a comma and a space,
    and [null] is returned when there is none. *)
Definition headers_get (h : Headers) (name : string) : option string :=
  match matching name h with
  | [] => None
  | vs => Some (join ", " vs)
  end.

(** *** [URLSearchParams] and the [application/x-www-form-urlencoded] format *)

Definition Pairs := list (string * string).

Definition hex_digit (n : Z) : ascii :=
  if n <? 10 then ascii_of_nat (Z.to_nat (48 + n))
  else ascii_of_nat (Z.to_nat (55 + n)).

Definition percent_byte (c : ascii) : string :=
  String "%" (String (hex_digit (code c / 16))
                (String (hex_digit (code c mod 16)) EmptyString)).

(** Bytes the serializer leaves as they are: alphanumerics and [*-._]. *)
Definition form_safe (c : ascii) : bool :=
  is_alnum c || (code c =? 42) || (code c =? 45) || (code c =? 46)
  || (code c =? 95).

Definition form_encode_byte (c : ascii) : string :=
  if code c =? 32 then "+"
  else if form_safe c then String c EmptyString
  else percent_byte c.

Fixpoint form_encode (s : string) : string :=
  match s with
  | EmptyString => EmptyString
  | String c r => form_encode_byte c ++ form_encode r
  end.

Definition form_pair (p : string * string) : string :=
  form_encode (fst p) ++ "=" ++ form_encode (snd p).

(** [URLSearchParams.prototype.toString]: the urlencoded serializer. *)
Definition toString (ps : Pairs) : string := join "&" (map form_pair ps).

(** The urlencoded parser, which [url.searchParams] and servers apply to
    a query string. *)
Fixpoint split_on (sep : ascii) (s : string) : list string :=
  match s with
  | EmptyString => [EmptyString]
  | String c r =>
      if Ascii.eqb c sep then EmptyString :: split_on sep r
      else match split_on sep r with
           | h :: t => String c h :: t
           | [] => [String c EmptyString]
           end
  end.

(** Name and value of one sequence: cut at the first [=]. *)
Fixpoint cut_at (sep : ascii) (s : string) : string * string :=
  match s with
  | EmptyString => (EmptyString, EmptyString)
  | String c r =>
      if Ascii.eqb c sep then (EmptyString, r)
      else let '(n, v) := cut_at sep r in (String c n, v)
  end.

Definition hex_value (c : ascii) : option Z :=
  match digit_value c with
  | Some d => if d <? 16 then Some d else None
  | None => None
  end.

Fixpoint plus_to_space (s : string) : string :=
  match s with
  | EmptyString => EmptyString
  | String c r =>
      String (if code c =? 43 then " "%char else c) (plus_to_space r)
  end.

(** Percent-decoding; [skip] counts the hex digits of an escape that was
    just decoded and are still to be dropped. *)
Fixpoint percent_decode_from (skip : nat) (s : string) : string :=
  match s with
  | EmptyString => EmptyString
  | String c r =>
      match skip with
      | S k => percent_decode_from k r
      | O =>
          if code c =? 37 then
            match r with
            | String a (String b _) =>
                match hex_value a, hex_value b with
                | Some x, Some y =>
                    String (ascii_of_nat (Z.to_nat (x * 16 + y)))
                           (percent_decode_from 2 r)
                | _, _ => String c (percent_decode_from 0 r)
                end
            | _ => String c (percent_decode_from 0 r)
            end
          else String c (percent_decode_from 0 r)
      end
  end.

Definition percent_decode (s : string) : string := percent_decode_from 0 s.

Definition form_decode (s : string) : string := percent_decode (plus_to_space s).

Definition parse_pair (s : string) : string * string :=
  let '(n, v) := cut_at "=" s in (form_decode n, form_decode v).

Definition nonempty (s : string) : bool :=
  match s with EmptyString => false | _ => true end.

Definition parse (input : string) : Pairs :=
  map parse_pair (filter nonempty (split_on "&" input)).

(** *** [URL] *)

(** A parsed URL. Resolving a reference against a base is the platform's
    URL parser; the client relies on it only through the components. *)
Record URL := mkURL {
  scheme : string;
  authority : string;
  path : string;
  query : option string;
  fragment : option string
}.

Definition is_special (u : URL) : bool :=
  existsb (String.eqb (scheme u)) ["http"; "https"; "ws"; "wss"; "ftp"; "file"].

(** The query percent-encode set (with the apostrophe for special
    schemes). *)
Definition query_unsafe (special : bool) (c : ascii) : bool :=
  (code c <=? 32) || (126 <? code c) || (code c =? 34) || (code c =? 35)
  || (code c =? 60) || (code c =? 62) || (special && (code c =? 39)).

Definition tab_or_newline (c : ascii) : bool :=
  (code c =? 9) || (code c =? 10) || (code c =? 13).

(** The URL parser run in query state on [s]: tabs and newlines are
    removed, bytes of the query percent-encode set are escaped. *)
Fixpoint query_encode (special : bool) (s : string) : string :=
  match s with
  | EmptyString => EmptyString
  | String c r =>
      if tab_or_newline c then query_encode special r
      else (if query_unsafe special c then percent_byte c
            else String c EmptyString) ++ query_encode special r
  end.

Definition strip_question (s : string) : string :=
  match s with
  | String "?" r => r
  | _ => s
  end.

(** The [search] setter: the empty string clears the query; otherwise one
    leading [?] is dropped and the rest is parsed in query state. *)
Definition set_search (u : URL) (value : string) : URL :=
  match value with
  | EmptyString =>
      mkURL (scheme u) (authority u) (path u) None (fragment u)
  | _ =>
      mkURL (scheme u) (authority u) (path u)
            (Some (query_encode (is_special u) (strip_question value)))
            (fragment u)
  end.

(** The [search] getter. *)
Definition search (u : URL) : string :=
  match query u with
  | None => EmptyString
  | Some EmptyString => EmptyString
  | Some q => String "?" q
  end.

(** [url.searchParams]: the query parsed as urlencoded pairs. *)
Definition searchParams (u : URL) : Pairs :=
  match query u with
  | None => []
  | Some q => parse q
  end.

(** *** JSON values and property access *)

#[local] Set Warnings "-register-all".

Inductive Json :=
| JNull
| JBool (b : bool)
| JNumber (n : Z)
| JString (s : string)
| JArray (items : list Json)
| JObject (fields : list (string * Json)).

Fixpoint assoc {A : Type} (k : string) (l : list (string * A)) : option A :=
  match l with
  | [] => None
  | (k', v) :: rest => if String.eqb k k' then Some v else assoc k rest
  end.

(** [data.name] on a decoded JSON value; [None] is [undefined]. *)
Definition prop (data : Json) (name : string) : option Json :=
  match data with
  | JObject fields => assoc name fields
  | _ => None
  end.

(** *** Promises of no value, and the clock *)

(** A promise is identified by [pid]; it is settled from the start
    ([settles = None], as [Promise.resolve()] gives) or becomes settled
    when the clock reaches [settles] (a timer). *)
Record Promise := mkPromise {
  pid : nat;
  settles : option Z
}.

(** The time at which code that awaits [p] at time [t] resumes. *)
Definition resumes (p : Promise) (t : Z) : Z :=
  match settles p with
  | Some deadline => Z.max t deadline
  | None => t
  end.

Inductive LogValue :=
| LNull
| LText (s : string)
| LNumber (n : Z).

(** The runtime outside the client object: the clock ([Date.now()]), the
    promise allocator, and what was written to the console. *)
Record Runtime := mkRuntime {
  clock : Z;
  next_pid : nat;
  console : list (string * LogValue)
}.

End Js.

(* ===================================================================== *)
(** ** The client                                                         *)
(* ===================================================================== *)

(** The entity kinds of the [lookup] overloads. *)
Inductive EntityType :=
| Area | Artist | Collection | Event | Genre | Instrument | Label
| Place | Recording | Release | ReleaseGroup | Series | Url | Work.

Definition entity_name (e : EntityType) : string :=
  match e with
  | Area => "area"
  | Artist => "artist"
  | Collection => "collection"
  | Event => "event"
  | Genre => "genre"
  | Instrument => "instrument"
  | Label => "label"
  | Place => "place"
  | Recording => "recording"
  | Release => "release"
  | ReleaseGroup => "release-group"
  | Series => "series"
  | Url => "url"
  | Work => "work"
  end.

(** What a call can fail with. [ApiError] is the only one the client makes
    itself; it carries [data.error] as it was decoded and the status. *)
Inductive Exn :=
| AssertionError (message : string)
| ApiError (message : option Js.Json) (statusCode : Z)
| TypeError (message : string)
| Foreign (message : string).

(** A [Response], by what its members give: [status], [headers] and what
    [json()] settles to. *)
Record Response := mkResponse {
  status : Z;
  resp_headers : Js.Headers;
  json : Exn + Js.Json
}.

Record RequestInit := mkInit {
  method : string;
  init_headers : Js.Headers;
  body : option string
}.

(** One request put on the network, with the time it was sent. *)
Record Sent := mkSent {
  sent_at : Z;
  sent_url : Js.URL;
  sent_init : RequestInit
}.

Inductive Fetched :=
| Failed (e : Exn)
| Responded (r : Response).

(** What the client imports or calls and is not part of [client.ts]:
    [validate] of the UUID module, [isError] of [./error.ts], the [URL]
    constructor, [JSON.stringify], and the network behind [fetch], which
    answers a request, given the earlier ones, after some milliseconds. *)
Record Env := mkEnv {
  validate : string -> bool;
  isError : Js.Json -> bool;
  new_URL : string -> string -> Exn + Js.URL;
  stringify : Js.Json -> string;
  network : list Sent -> Sent -> Fetched * N
}.

(** A value of a query mapping [Query<string | number>]; a key may also be
    present with the value [undefined]. *)
Inductive QValue :=
| QString (s : string)
| QNumber (n : Z)
| QUndefined.

(** A query object, as the list [Object.entries] enumerates (the keys of
    an object are distinct). *)
Definition Query := list (string * QValue).

Definition defined (v : QValue) : bool :=
  match v with
  | QUndefined => false
  | _ => true
  end.

(** [ToString] of a query value, which [URLSearchParams] applies (numbers
    are the integers that JavaScript prints in plain decimal notation). *)
Definition to_string (v : QValue) : string :=
  match v with
  | QString s => s
  | QNumber n => NilZero.string_of_int (Z.to_int n)
  | QUndefined => "undefined"
  end.

Definition URLSearchParams (entries : Query) : Js.Pairs :=
  map (fun kv => (fst kv, to_string (snd kv))) entries.

Record ClientOptions := mkOptions {
  apiUrl : option string
}.

(** The fields of [MusicBrainzClient]. *)
Record Client := mkClient {
  apiBaseUrl : string;
  headers : Js.Headers;
  rateLimitDelay : Js.Promise
}.

(** The client object, the runtime and the requests sent so far. *)
Record State := mkState {
  this : Client;
  rt : Js.Runtime;
  wire : list Sent
}.

(** *** Asynchronous code: state and rejection *)

Inductive Settled (A : Type) :=
| Fulfilled (a : A)
| Rejected (e : Exn).

Arguments Fulfilled {A} a.
Arguments Rejected {A} e.

Definition Task (A : Type) := State -> Settled A * State.

Definition ret {A : Type} (a : A) : Task A := fun s => (Fulfilled a, s).

Definition throw {A : Type} (e : Exn) : Task A := fun s => (Rejected e, s).

Definition bind {A B : Type} (c : Task A) (k : A -> Task B) : Task B :=
  fun s =>
    match c s with
    | (Fulfilled a, s') => k a s'
    | (Rejected e, s') => (Rejected e, s')
    end.

Declare Scope task_scope.
Delimit Scope task_scope with task.
Notation "x <- c ;; k" := (bind c (fun x => k))
  (at level 61, c at next level, right associativity) : task_scope.
Notation "c ;; k" := (bind c (fun _ => k))
  (at level 61, right associativity) : task_scope.
Open Scope task_scope.

Definition lift {A : Type} (r : Exn + A) : Task A :=
  match r with
  | inl e => throw e
  | inr a => ret a
  end.

(** [Date.now()]. *)
Definition Date_now : Task Z := fun s => (Fulfilled (Js.clock (rt s)), s).

Definition console_log (label : string) (v : Js.LogValue) : Task unit :=
  fun s =>
    (Fulfilled tt,
     mkState (this s)
             (Js.mkRuntime (Js.clock (rt s)) (Js.next_pid (rt s))
                           (Js.console (rt s) ++ [(label, v)]))
             (wire s)).

(** [Promise.resolve()]: a new promise, settled from the start. *)
Definition Promise_resolve (r : Js.Runtime) : Js.Promise * Js.Runtime :=
  (Js.mkPromise (Js.next_pid r) None,
   Js.mkRuntime (Js.clock r) (S (Js.next_pid r)) (Js.console r)).

(** [delay(ms)] of the standard library, by its contract: a new promise
    that settles [ms] milliseconds from now. The contract is that of the
    timer it rests on, which holds for delays up to [2^31 - 1] ms; the
    statements about the time at which a gate lets a request through
    assume a cooldown within that range. *)
Definition delay (ms : Z) : Task Js.Promise :=
  fun s =>
    (Fulfilled (Js.mkPromise (Js.next_pid (rt s)) (Some (Js.clock (rt s) + ms))),
     mkState (this s)
             (Js.mkRuntime (Js.clock (rt s)) (S (Js.next_pid (rt s)))
                           (Js.console (rt s)))
             (wire s)).

(** [await p]: the task resumes once [p] is settled. *)
Definition await (p : Js.Promise) : Task unit :=
  fun s =>
    (Fulfilled tt,
     mkState (this s)
             (Js.mkRuntime (Js.resumes p (Js.clock (rt s))) (Js.next_pid (rt s))
                           (Js.console (rt s)))
             (wire s)).

(** Time passing between two tasks. *)
Definition elapse (ms : N) (s : State) : State :=
  mkState (this s)
          (Js.mkRuntime (Js.clock (rt s) + Z.of_N ms) (Js.next_pid (rt s))
                        (Js.console (rt s)))
          (wire s).

Definition self : Task Client := fun s => (Fulfilled (this s), s).

(** [this.#rateLimitDelay = p]. *)
Definition set_rateLimitDelay (p : Js.Promise) : Task unit :=
  fun s =>
    (Fulfilled tt,
     mkState (mkClient (apiBaseUrl (this s)) (headers (this s)) p)
             (rt s) (wire s)).

(** [await fetch(url, init)]: the request goes on the wire now; the task
    resumes when the network has answered. *)
Definition fetch (env : Env) (url : Js.URL) (init : RequestInit) : Task Response :=
  fun s =>
    let sent := mkSent (Js.clock (rt s)) url init in
    let '(outcome, ms) := network env (wire s) sent in
    let s' := elapse ms (mkState (this s) (rt s) (wire s ++ [sent])) in
    match outcome with
    | Failed e => (Rejected e, s')
    | Responded r => (Fulfilled r, s')
    end.

(** *** The methods of [MusicBrainzClient] *)

Definition default_apiUrl : string := "https://musicbrainz.org/ws/2/".

(** The constructor; the field initializer [Promise.resolve()] supplies the
    first rate-limit gate. *)
Definition new_MusicBrainzClient (options : ClientOptions) (r : Js.Runtime)
  : Client * Js.Runtime :=
  let '(gate, r') := Promise_resolve r in
  (mkClient (match apiUrl options with Some u => u | None => default_apiUrl end)
            [("Accept", "application/json")]
            gate,
   r').

Definition log_text (v : option string) : Js.LogValue :=
  match v with
  | Some s => Js.LText s
  | None => Js.LNull
  end.

(** The part of [#request] that runs once the response is there (from the
    first [headers.get] to the end of the outer [if]). *)
Definition inspect (response : Response) : Task unit :=
  let remainingUnits :=
    Js.headers_get (resp_headers response) "X-RateLimit-Remaining" in
  console_log "X-RateLimit-Remaining" (log_text remainingUnits) ;;
  if Js.truthy remainingUnits
     && Js.is_zero (Js.parseInt (Js.text remainingUnits))
  then
    let rateLimitReset :=
      Js.headers_get (resp_headers response) "X-RateLimit-Reset" in
    if Js.truthy rateLimitReset then
      now <- Date_now ;;
      match Js.minus (Js.times (Js.parseInt (Js.text rateLimitReset)) 1000) now with
      | Some rateLimitDelay =>
          if 0 <? rateLimitDelay then
            (console_log "Cool down" (Js.LNumber rateLimitDelay) ;;
             gate <- delay rateLimitDelay ;;
             set_rateLimitDelay gate)
          else ret tt
      | None => ret tt
      end
    else ret tt
  else ret tt.

(** [#request]. *)
Definition request (env : Env) (url : Js.URL) (init : RequestInit)
  : Task Response :=
  c <- self ;;
  await (rateLimitDelay c) ;;
  response <- fetch env url init ;;
  inspect response ;;
  ret response.

(** The body that [get] and [post] share after the response has arrived. *)
Definition decode (env : Env) (response : Response) : Task Js.Json :=
  data <- lift (json response) ;;
  if isError env data
  then throw (ApiError (Js.prop data "error") (status response))
  else ret data.

(** The [if (query)] block of [get]: both assignments to [search], in
    the order of the source. *)
Definition with_query (endpointUrl : Js.URL) (query : option Query) : Js.URL :=
  match query with
  | Some q =>
      let definedParams := filter (fun kv => defined (snd kv)) q in
      let endpointUrl :=
        Js.set_search endpointUrl (Js.toString (URLSearchParams q)) in
      Js.set_search endpointUrl (Js.toString (URLSearchParams definedParams))
  | None => endpointUrl
  end.

Definition get (env : Env) (endpoint : string) (query : option Query)
  : Task Js.Json :=
  c <- self ;;
  endpointUrl <- lift (new_URL env endpoint (apiBaseUrl c)) ;;
  let endpointUrl := with_query endpointUrl query in
  response <- request env endpointUrl (mkInit "GET" (headers c) None) ;;
  decode env response.

(** [post], for data that is a JSON value: of such a value
    [JSON.stringify] gives a string. *)
Definition post (env : Env) (endpoint : string) (data : Js.Json)
  : Task Js.Json :=
  c <- self ;;
  endpointUrl <- lift (new_URL env endpoint (apiBaseUrl c)) ;;
  response <- request env endpointUrl
                (mkInit "POST" (headers c) (Some (stringify env data))) ;;
  decode env response.

(** [lookup] is not an [async] method: it either throws while it runs or
    returns the promise of [get]. *)
Inductive Call (A : Type) :=
| Threw (e : Exn)
| Returned (p : Settled A).

Arguments Threw {A} e.
Arguments Returned {A} p.

Definition lookup (env : Env) (entityType : EntityType) (mbid : string)
    (inc : option (list string)) : State -> Call Js.Json * State :=
  fun s =>
    let inc := match inc with Some l => l | None => [] end in
    if validate env mbid then
      let '(p, s') :=
        get env (Js.join "/" [entity_name entityType; mbid])
            (Some [("inc", QString (Js.join "+" inc))]) s in
      (Returned p, s')
    else (Threw (AssertionError (mbid ++ " is not a valid MBID")), s).

(** The state right after [new MusicBrainzClient(options)] at time [t0]. *)
Definition boot (options : ClientOptions) (t0 : Z) : State :=
  let '(c, r) := new_MusicBrainzClient options (Js.mkRuntime t0 O []) in
  mkState c r [].

(** The promise a client holds was allocated before. *)
Definition allocated (s : State) : Prop :=
  (Js.pid (rateLimitDelay (this s)) < Js.next_pid (rt s))%nat.

(** *** Cooldowns *)

(** The cooldown that a response arriving at time [now] asks for, in the
    words of the specification: both headers present, the remaining units
    parse to zero, and the reset time in milliseconds lies after [now].
    ([inspect] above is the code; [inspect_cooldown] below compares them.) *)
Definition cooldown (r : Response) (now : Z) : option Z :=
  match Js.headers_get (resp_headers r) "X-RateLimit-Remaining",
        Js.headers_get (resp_headers r) "X-RateLimit-Reset" with
  | Some remaining, Some reset =>
      match Js.parseInt remaining, Js.parseInt reset with
      | Some 0, Some T => if 0 <? T * 1000 - now then Some (T * 1000 - now) else None
      | _, _ => None
      end
  | _, _ => None
  end.

(** How long a request entering [#request] in state [s] waits before it is
    sent: the send time on the wire minus the time of entry. *)
Definition suspension (env : Env) (url : Js.URL) (init : RequestInit) (s : State)
  : option Z :=
  match rev (wire (snd (request env url init s))) with
  | sent :: _ => Some (sent_at sent - Js.clock (rt s))
  | [] => None
  end.

(** *** Vocabulary of the statements *)

(** The time at which a request entering [#request] in state [s] is sent:
    when the gate it awaits is settled. *)
Definition send_time (s : State) : Z :=
  Js.resumes (rateLimitDelay (this s)) (Js.clock (rt s)).

(** The state in which the rest of [#request] runs, when the request was
    sent from [s] and answered after [ms] milliseconds. *)
Definition at_arrival (url : Js.URL) (init : RequestInit) (ms : N) (s : State)
  : State :=
  mkState (this s)
          (Js.mkRuntime (send_time s + Z.of_N ms) (Js.next_pid (rt s))
                        (Js.console (rt s)))
          (wire s ++ [mkSent (send_time s) url init]).

(** The three public entry points. *)
Inductive EntryPoint :=
| ViaLookup (entityType : EntityType) (mbid : string) (inc : option (list string))
| ViaGet (endpoint : string) (query : option Query)
| ViaPost (endpoint : string) (data : Js.Json).

Definition invoke (env : Env) (e : EntryPoint) (s : State) : Call Js.Json * State :=
  match e with
  | ViaLookup entityType mbid inc => lookup env entityType mbid inc s
  | ViaGet endpoint query =>
      let '(p, s') := get env endpoint query s in (Returned p, s')
  | ViaPost endpoint data =>
      let '(p, s') := post env endpoint data s in (Returned p, s')
  end.

(** The call made from [s] put exactly the request [sent] on the wire and
    the network answered it with the response [r]. *)
Definition exchanged (env : Env) (s s' : State) (sent : Sent) (r : Response) : Prop :=
  wire s' = (wire s ++ [sent])%list /\ fst (network env (wire s) sent) = Responded r.

(** The conditions of a cooldown, on the headers of [r] at time [now]. *)
Definition throttles (r : Response) (now : Z) (T : Z) : Prop :=
  exists remaining reset,
    Js.headers_get (resp_headers r) "X-RateLimit-Remaining" = Some remaining /\
    Js.parseInt remaining = Some 0 /\
    Js.headers_get (resp_headers r) "X-RateLimit-Reset" = Some reset /\
    Js.parseInt reset = Some T /\
    0 < T * 1000 - now.

Fixpoint all (P : ascii -> bool) (s : string) : bool :=
  match s with
  | EmptyString => true
  | String c r => P c && all P r
  end.

(** The bytes a serialized query is made of, and those of one encoded
    name or value. *)
Definition plain (c : ascii) : bool :=
  Js.form_safe c || (Js.code c =? 43) || (Js.code c =? 37)
  || (Js.code c =? 61) || (Js.code c =? 38).

Definition token (c : ascii) : bool :=
  Js.form_safe c || (Js.code c =? 43) || (Js.code c =? 37).

(** The reading of "every later request is suspended for at least the
    whole cooldown": a request that enters [#request] [ms] milliseconds
    after the cooldown of length [T * 1000 - now] was installed, while the
    window is still open, waits at least that long. *)
Definition suspended_for_whole_cooldown : Prop :=
  forall (env : Env) (r : Response) (s : State) (T : Z) (ms : N)
         (url : Js.URL) (init : RequestInit) (w : Z),
    throttles r (Js.clock (rt s)) T ->
    Z.of_N ms < T * 1000 - Js.clock (rt s) ->
    suspension env url init (elapse ms (snd (inspect r s))) = Some w ->
    T * 1000 - Js.clock (rt s) <= w.

(** What an entry point does before it reaches [#request]: it stops with
    an outcome, or has a URL and the options of the request ready. *)
Inductive Plan :=
| Stops (outcome : Call Js.Json)
| Sends (url : Js.URL) (init : RequestInit).

Definition plan_get (env : Env) (endpoint : string) (query : option Query)
    (c : Client) : Plan :=
  match new_URL env endpoint (apiBaseUrl c) with
  | inl e => Stops (Returned (Rejected e))
  | inr u => Sends (with_query u query) (mkInit "GET" (headers c) None)
  end.

Definition plan (env : Env) (e : EntryPoint) (c : Client) : Plan :=
  match e with
  | ViaLookup entityType mbid inc =>
      if validate env mbid then
        plan_get env (Js.join "/" [entity_name entityType; mbid])
          (Some [("inc", QString (Js.join "+" (match inc with
                                                | Some l => l
                                                | None => []
                                                end)))]) c
      else Stops (Threw (AssertionError (mbid ++ " is not a valid MBID")))
  | ViaGet endpoint query => plan_get env endpoint query c
  | ViaPost endpoint data =>
      match new_URL env endpoint (apiBaseUrl c) with
      | inl e => Stops (Returned (Rejected e))
      | inr u => Sends u (mkInit "POST" (headers c) (Some (stringify env data)))
      end
  end.

(** *** Schedules *)

(** What can happen to a client, one thing after the other: a call runs
    from its start to its end; the response of a request that was in flight
    arrives and the rest of its [#request] runs; time passes. (Entering
    [#request] only reads the gate.) *)
Inductive Occurrence :=
| Called (e : EntryPoint)
| Arrive (r : Response)
| Wait (ms : N).

Definition step (env : Env) (s : State) (o : Occurrence) : State :=
  match o with
  | Called e => snd (invoke env e s)
  | Arrive r => snd (inspect r s)
  | Wait ms => elapse ms s
  end.

Definition run (env : Env) (os : list Occurrence) (s : State) : State :=
  fold_left (step env) os s.

(** The response that an occurrence brings to [#request] in state [s],
    with the time at which it arrives. *)
Definition brings (env : Env) (s : State) (o : Occurrence) : option (Response * Z) :=
  match o with
  | Called e =>
      match plan env e (this s) with
      | Sends u init =>
          match network env (wire s) (mkSent (send_time s) u init) with
          | (Responded r, ms) => Some (r, send_time s + Z.of_N ms)
          | (Failed _, _) => None
          end
      | Stops _ => None
      end
  | Arrive r => Some (r, Js.clock (rt s))
  | Wait _ => None
  end.

(** The deadline in force after an occurrence, when [acc] was in force
    before: that of the cooldown it asks for, if it asks for one. *)
Definition renewed (env : Env) (s : State) (o : Occurrence) (acc : option Z)
  : option Z :=
  match brings env s o with
  | Some (r, now) =>
      match cooldown r now with
      | Some d => Some (now + d)
      | None => acc
      end
  | None => acc
  end.

(** The deadline in force at the end of a schedule: that of the last
    cooldown asked for along it, if there was one. *)
Fixpoint last_deadline (env : Env) (os : list Occurrence) (s : State)
    (acc : option Z) : option Z :=
  match os with
  | [] => acc
  | o :: rest => last_deadline env rest (step env s o) (renewed env s o acc)
  end.

Definition no_amp (c : ascii) : bool := negb (Ascii.eqb c "&").

(** The [search] assignment of the filtered entries alone. *)
Definition assign_defined (u : Js.URL) (q : Query) : Js.URL :=
  Js.set_search u
    (Js.toString (URLSearchParams (filter (fun kv => defined (snd kv)) q))).

(* ===================================================================== *)
(** ** A concrete environment                                             *)
(* ===================================================================== *)

Module Sample.

Definition is_hex (c : ascii) : bool :=
  match Js.hex_value c with Some _ => true | None => false end.

Fixpoint hexes (n : nat) (s : string) : option string :=
  match n with
  | O => Some s
  | S k =>
      match s with
      | String c r => if is_hex c then hexes k r else None
      | EmptyString => None
      end
  end.

Definition one_of (cs : list ascii) (s : string) : option string :=
  match s with
  | String c r => if existsb (Ascii.eqb (Js.lower_char c)) cs then Some r else None
  | EmptyString => None
  end.

Definition and_then (a : option string) (f : string -> option string) : option string :=
  match a with
  | Some s => f s
  | None => None
  end.

Local Infix ">>=" := and_then (at level 50, left associativity).

(** The UUID grammar of the standard library's [validate]:
    8-4-4-4-12 hexadecimal digits in either case, the version digit in
    [1-5] and the variant digit in [89ab]. *)
Definition uuid (s : string) : bool :=
  match hexes 8 s >>= one_of ["-"%char] >>= hexes 4 >>= one_of ["-"%char]
        >>= one_of (list_ascii_of_string "12345") >>= hexes 3
        >>= one_of ["-"%char]
        >>= one_of (list_ascii_of_string "89ab") >>= hexes 3
        >>= one_of ["-"%char] >>= hexes 12 with
  | Some EmptyString => true
  | _ => false
  end.

(** Modelled from the spec: [./error.ts] is not among the sources. The
    error payload and the success payload "are structurally distinguished
    by presence of an error field". *)
Definition has_error_field (data : Js.Json) : bool :=
  match Js.prop data "error" with
  | Some _ => true
  | None => false
  end.

(** Resolution of a plain relative path against the default base. *)
Definition resolve (endpoint base : string) : Exn + Js.URL :=
  if String.eqb base default_apiUrl
  then inr (Js.mkURL "https" "musicbrainz.org" ("/ws/2/" ++ endpoint) None None)
  else inl (TypeError "Invalid URL").

(** A network that answers every request with [r] after 25 ms. *)
Definition serve (r : Response) : Env :=
  mkEnv uuid has_error_field resolve (fun _ => "{}") (fun _ _ => (Responded r, 25%N)).

Definition mbid : string := "94ed318a-fd7d-4abc-8491-a35e39f51dca".

Definition not_found : Response :=
  mkResponse 404 [("Content-Type", "application/json")]
    (inr (Js.JObject [("error", Js.JString "Not Found");
                      ("help", Js.JString "See the documentation")])).

Definition found : Response :=
  mkResponse 200 [("Content-Type", "application/json")]
    (inr (Js.JObject [("id", Js.JString mbid); ("title", Js.JString "LAST ANGEL")])).

(** A response that exhausts the quota until second [1]. *)
Definition throttled : Response :=
  mkResponse 200 [("x-ratelimit-remaining", "0"); ("x-ratelimit-reset", "1")]
    (inr (Js.JObject [])).

(** A later response that exhausts the quota until second [3]. *)
Definition throttled_again : Response :=
  mkResponse 200 [("X-RateLimit-Remaining", "0"); ("X-RateLimit-Reset", "3")]
    (inr (Js.JObject [])).

(** A response with an error status whose body is not an error payload. *)
Definition gone : Response :=
  mkResponse 404 [("Content-Type", "application/json")]
    (inr (Js.JObject [("message", Js.JString "nothing here")])).

Definition start : State := boot (mkOptions None) 0.

Definition here : Js.URL := Js.mkURL "https" "musicbrainz.org" "/ws/2/artist" None None.

Definition plain : RequestInit := mkInit "GET" [("Accept", "application/json")] None.

(** The request of [lookup("recording", mbid)] made from [start]. *)
Definition lookup_sent : Sent :=
  mkSent 0
    (Js.mkURL "https" "musicbrainz.org" ("/ws/2/recording/" ++ mbid)
              (Some "inc=") None)
    plain.

Definition search_query : Query :=
  [("query", QString "a b&c"); ("limit", QNumber 5); ("offset", QUndefined)].

(** The request of [get("artist", search_query)] made from [start]. *)
Definition search_sent : Sent :=
  mkSent 0
    (Js.mkURL "https" "musicbrainz.org" "/ws/2/artist"
              (Some "query=a+b%26c&limit=5") None)
    plain.

End Sample.

(* ===================================================================== *)
(** ** The test-data generator                                            *)
(* ===================================================================== *)

(** The second source file: [fetchTestdata], [testdataImports],
    [lookupTestCases] and the script that runs when the module is the main
    one. *)

(** What the generator calls and is not part of the repository:
    [toPascalCase] of the standard library, [JSON.stringify(value, null, 2)],
    and the file behind [Deno.open] and [output.write], which either fail
    or succeed, a write after some milliseconds. *)
Record Tools := mkTools {
  toPascalCase : string -> string;
  pretty : Js.Json -> string;
  open_output : option Exn;
  write_output : list string -> string -> option Exn * N
}.

(** A word character of a regular expression: [A-Za-z0-9_]. *)
Definition is_word (c : ascii) : bool := Js.is_alnum c || (Js.code c =? 95).

(** [s.replaceAll(/\W/g, "_")]. *)
Fixpoint replace_nonword (s : string) : string :=
  match s with
  | EmptyString => EmptyString
  | String c r => String (if is_word c then c else "_"%char) (replace_nonword r)
  end.

Definition dquote : ascii := ascii_of_nat 34.

Definition newline : string := String (ascii_of_nat 10) EmptyString.

(** The template literal of one include, the token between double
    quotes. *)
Definition quoted (inc : string) : string :=
  String dquote (inc ++ String dquote EmptyString).

(** [[entityType, mbid, ...(includes ?? [])].join("_").replaceAll(/\W/g, "_")]. *)
Definition identifier (entityType : EntityType) (mbid : string)
    (includes : option (list string)) : string :=
  replace_nonword
    (Js.join "_" (entity_name entityType :: mbid ::
                  match includes with Some l => l | None => [] end)).

(** [includes?.map((inc) => `"${inc}"`).join(" | ") ?? "never"]. *)
Definition includes_type (includes : option (list string)) : string :=
  match includes with
  | Some l => Js.join " | " (map quoted l)
  | None => "never"
  end.

(** The text that [fetchTestdata] returns for the payload [result]. *)
Definition testdata (tools : Tools) (entityType : EntityType) (mbid : string)
    (includes : option (list string)) (result : Js.Json) : string :=
  "const _" ++ identifier entityType mbid includes
  ++ ": MB.WithIncludes<MB." ++ toPascalCase tools (entity_name entityType)
  ++ ", " ++ includes_type includes
  ++ "> = " ++ pretty tools result ++ ";" ++ newline.

(** [fetchTestdata] is [async]: what [lookup] throws while it runs rejects
    the promise that [fetchTestdata] returns. *)
Definition fetchTestdata (env : Env) (tools : Tools) (entityType : EntityType)
    (mbid : string) (includes : option (list string)) : Task string :=
  fun s =>
    match lookup env entityType mbid includes s with
    | (Threw e, s') => (Rejected e, s')
    | (Returned (Rejected e), s') => (Rejected e, s')
    | (Returned (Fulfilled result), s') =>
        (Fulfilled (testdata tools entityType mbid includes result), s')
    end.

Definition testdataImports : string :=
  "import type * as MB from " ++ quoted "@/api_types.ts" ++ ";" ++ newline.

(** A test case [[EntityType, MBID, string[]?]]. *)
Definition TestCase : Type := EntityType * string * option (list string).

Definition lookupTestCases : list TestCase :=
  [(Recording, "94ed318a-fd7d-4abc-8491-a35e39f51dca", None)].

(** The script: the chunks handed to [output.write] so far, in order,
    whether [output.close()] was reached, and the state of the client once
    it is constructed. *)
Record Script := mkScript {
  writes : list string;
  closed : bool;
  final : option State
}.

(** The [for] loop of the script over the test cases that are left. *)
Fixpoint write_cases (env : Env) (tools : Tools) (cases : list TestCase)
    (s : State) (w : list string) : Settled unit * (State * list string) :=
  match cases with
  | [] => (Fulfilled tt, (s, w))
  | (entityType, mbid, includes) :: rest =>
      match fetchTestdata env tools entityType mbid includes s with
      | (Rejected e, s') => (Rejected e, (s', w))
      | (Fulfilled code, s') =>
          match write_output tools w code with
          | (Some e, ms) => (Rejected e, (elapse ms s', (w ++ [code])%list))
          | (None, ms) =>
              write_cases env tools rest (elapse ms s') (w ++ [code])%list
          end
      end
  end.

(** The script over the test cases [cases], the client being constructed
    at time [t0]. *)
Definition script (env : Env) (tools : Tools) (t0 : Z) (cases : list TestCase)
  : Settled unit * Script :=
  match open_output tools with
  | Some e => (Rejected e, mkScript [] false None)
  | None =>
      match write_output tools [] testdataImports with
      | (Some e, _) => (Rejected e, mkScript [testdataImports] false None)
      | (None, _) =>
          match write_cases env tools cases (boot (mkOptions None) t0)
                            [testdataImports] with
          | (Fulfilled _, (s, w)) => (Fulfilled tt, mkScript w true (Some s))
          | (Rejected e, (s, w)) => (Rejected e, mkScript w false (Some s))
          end
      end
  end.

Definition main (env : Env) (tools : Tools) (t0 : Z) : Settled unit * Script :=
  script env tools t0 lookupTestCases.

(** *** Vocabulary of the further statements *)

(** The chunks are the texts of the test cases, one for one and in order,
    each for some payload. *)
Definition texts_of (tools : Tools) (cases : list TestCase)
    (chunks : list string) : Prop :=
  Forall2 (fun c chunk =>
             exists result,
               chunk = testdata tools (fst (fst c)) (snd (fst c)) (snd c) result)
          cases chunks.

Definition differs (sep : ascii) (c : ascii) : bool := negb (Ascii.eqb c sep).

(** The network answers with [r] the request for [url] with the options
    [init] that is sent from the state [s] when the gate allows. *)
Definition answers (env : Env) (s : State) (url : Js.URL) (init : RequestInit)
    (r : Response) : Prop :=
  fst (network env (wire s) (mkSent (send_time s) url init)) = Responded r.

(** The query mapping that [lookup] hands to [get]. *)
Definition inc_query (inc : option (list string)) : Query :=
  [("inc", QString (Js.join "+" (match inc with Some l => l | None => [] end)))].

(** The longest delay of a timer: beyond it [setTimeout], on which [delay]
    rests, does not wait. *)
Definition timer_max : Z := 2147483647.

(** The endpoint that an entry point resolves against the base URL. *)
Definition endpoint_of (e : EntryPoint) : string :=
  match e with
  | ViaLookup entityType mbid _ => Js.join "/" [entity_name entityType; mbid]
  | ViaGet endpoint _ => endpoint
  | ViaPost endpoint _ => endpoint
  end.

(** The identifier of a lookup is one that [validate] accepts (the other
    entry points take none). *)
Definition passes_validation (env : Env) (e : EntryPoint) : bool :=
  match e with
  | ViaLookup _ mbid _ => validate env mbid
  | _ => true
  end.

(** What the rest of [#request] writes to the console for the response
    [r] at time [now]. *)
Definition logged (r : Response) (now : Z) : list (string * Js.LogValue) :=
  ("X-RateLimit-Remaining",
   log_text (Js.headers_get (resp_headers r) "X-RateLimit-Remaining"))
  :: match cooldown r now with
     | Some d => [("Cool down", Js.LNumber d)]
     | None => []
     end.

(** The request that a call put on the wire, if it put one. *)
Definition sent_by (env : Env) (e : EntryPoint) (s : State) : option Sent :=
  match plan env e (this s) with
  | Sends u init => Some (mkSent (send_time s) u init)
  | Stops _ => None
  end.

(** A request as the client makes them: the fixed header, and either [GET]
    without a body or [POST]. *)
Definition well_formed (sent : Sent) : Prop :=
  init_headers (sent_init sent) = [("Accept", "application/json")] /\
  ((method (sent_init sent) = "GET" /\ body (sent_init sent) = None) \/
   method (sent_init sent) = "POST").

(** The decimal digits of a natural number given by its digits. *)
Fixpoint uint_value (d : Decimal.uint) (acc : Z) : Z :=
  match d with
  | Decimal.Nil => acc
  | Decimal.D0 r => uint_value r (acc * 10)
  | Decimal.D1 r => uint_value r (acc * 10 + 1)
  | Decimal.D2 r => uint_value r (acc * 10 + 2)
  | Decimal.D3 r => uint_value r (acc * 10 + 3)
  | Decimal.D4 r => uint_value r (acc * 10 + 4)
  | Decimal.D5 r => uint_value r (acc * 10 + 5)
  | Decimal.D6 r => uint_value r (acc * 10 + 6)
  | Decimal.D7 r => uint_value r (acc * 10 + 7)
  | Decimal.D8 r => uint_value r (acc * 10 + 8)
  | Decimal.D9 r => uint_value r (acc * 10 + 9)
  end.

(** Sample values for the further statements. *)
Module Fixture.

Definition pascal (s : string) : string :=
  match s with
  | EmptyString => EmptyString
  | String c r =>
      String (if Js.is_lower c then ascii_of_nat (nat_of_ascii c - 32) else c) r
  end.

Definition tools : Tools :=
  mkTools pascal (fun _ => "{}") None (fun _ _ => (None, 3%N)).

(** A network that fails every request after 40 ms. *)
Definition offline : Env :=
  mkEnv Sample.uuid Sample.has_error_field Sample.resolve (fun _ => "{}")
        (fun _ _ => (Failed (TypeError "network down"), 40%N)).

(** A response whose body is not JSON, with the quota used up until
    second [2]. *)
Definition garbled : Response :=
  mkResponse 502 [("X-RateLimit-Remaining", "0"); ("X-RateLimit-Reset", "2")]
    (inl (Foreign "Unexpected token <")).

Definition artist_sent : Sent :=
  mkSent 0 (Js.mkURL "https" "musicbrainz.org" "/ws/2/artist" None None)
         Sample.plain.

(** A base URL that the sample resolver does not accept. *)
Definition elsewhere : State := boot (mkOptions (Some "nowhere")) 0.

Definition with_old_query : Js.URL :=
  Js.mkURL "https" "musicbrainz.org" "/ws/2/artist" (Some "query=x") (Some "top").

(** An environment whose endpoints resolve to a URL that has a query and
    a fragment already. *)
Definition env_old : Env :=
  mkEnv Sample.uuid Sample.has_error_field (fun _ _ => inr with_old_query)
        (fun _ => "{}") (fun _ _ => (Responded Sample.found, 25%N)).

Definition old_sent : Sent :=
  mkSent 0 (Js.mkURL "https" "musicbrainz.org" "/ws/2/artist" None (Some "top"))
         Sample.plain.

Definition post_sent : Sent :=
  mkSent 0 (Js.mkURL "https" "musicbrainz.org" "/ws/2/artist" None None)
         (mkInit "POST" [("Accept", "application/json")] (Some "{}")).

Definition includes_sent : Sent :=
  mkSent 0
    (Js.mkURL "https" "musicbrainz.org" ("/ws/2/recording/" ++ Sample.mbid)
              (Some "inc=artists%2Breleases") None)
    Sample.plain.

Definition sent_at_time (t : Z) : Sent :=
  mkSent t (Js.mkURL "https" "musicbrainz.org" "/ws/2/artist" None None)
         Sample.plain.

Definition payload : Js.Json :=
  Js.JObject [("id", Js.JString Sample.mbid); ("title", Js.JString "LAST ANGEL")].

End Fixture.

(* ===================================================================== *)
(** ** The rate-limit gate                                                *)
(* ===================================================================== *)

Section RateLimit.

Variable env : Env.

Lemma parseInt_of_empty : Js.parseInt EmptyString = None.
Proof. reflexivity. Qed.

(** Truthiness adds nothing to the test of [parseInt] against a number:
    the empty string parses to [NaN]. *)
Lemma truthy_parses (v : option string) (n : Z) :
  Js.parseInt (Js.text v) = Some n -> v <> None -> Js.truthy v = true.
Proof.
  destruct v as [[|c r]|]; simpl; intros H Hv.
  - discriminate H.
  - reflexivity.
  - contradiction.
Qed.

(** What the inspection of a response does, in one equation. *)
Lemma inspect_cooldown (r : Response) (s : State) :
  inspect r s =
  (Fulfilled tt,
   let logged :=
     (Js.console (rt s) ++
        [("X-RateLimit-Remaining",
          log_text (Js.headers_get (resp_headers r) "X-RateLimit-Remaining"))])%list in
   match cooldown r (Js.clock (rt s)) with
   | Some d =>
       mkState (mkClient (apiBaseUrl (this s)) (headers (this s))
                         (Js.mkPromise (Js.next_pid (rt s))
                                       (Some (Js.clock (rt s) + d))))
               (Js.mkRuntime (Js.clock (rt s)) (S (Js.next_pid (rt s)))
                             (logged ++ [("Cool down", Js.LNumber d)])%list)
               (wire s)
   | None =>
       mkState (this s)
               (Js.mkRuntime (Js.clock (rt s)) (Js.next_pid (rt s)) logged)
               (wire s)
   end).
Proof.
  unfold inspect, cooldown.
  destruct (Js.headers_get (resp_headers r) "X-RateLimit-Remaining")
    as [rem|]; [|reflexivity].
  destruct (Js.headers_get (resp_headers r) "X-RateLimit-Reset")
    as [reset|].
  - destruct rem as [|c0 rem]; [reflexivity|].
    unfold bind at 1. cbn [console_log Js.truthy Js.text andb].
    destruct (Js.parseInt (String c0 rem)) as [[|p|p]|]; try reflexivity.
    cbn [Js.is_zero Z.eqb].
    destruct reset as [|c1 reset]; [reflexivity|].
    cbn [Js.truthy Js.text].
    unfold bind at 1, Date_now. cbn [rt Js.clock].
    destruct (Js.parseInt (String c1 reset)) as [T|]; try reflexivity.
    cbn [Js.times Js.minus option_map].
    destruct (0 <? T * 1000 - Js.clock (rt s)); reflexivity.
  - destruct rem as [|c0 rem]; [reflexivity|].
    unfold bind at 1. cbn [console_log Js.truthy Js.text andb].
    destruct (Js.parseInt (String c0 rem)) as [[|p|p]|]; reflexivity.
Qed.

Lemma cooldown_throttles (r : Response) (now d : Z) :
  cooldown r now = Some d <-> exists T, throttles r now T /\ d = T * 1000 - now.
Proof.
  unfold cooldown, throttles. split.
  - destruct (Js.headers_get (resp_headers r) "X-RateLimit-Remaining")
      as [rem|]; [|discriminate].
    destruct (Js.headers_get (resp_headers r) "X-RateLimit-Reset")
      as [reset|]; [|discriminate].
    destruct (Js.parseInt rem) as [[|p|p]|] eqn:Erem; try discriminate;
      destruct (Js.parseInt reset) as [T|] eqn:Ereset; try discriminate.
    destruct (Z.ltb_spec 0 (T * 1000 - now)); [|discriminate].
    intros [= <-]. exists T. split; [|reflexivity].
    exists rem, reset. repeat split; assumption.
  - intros (T & (rem & reset & -> & -> & -> & -> & Hpos) & ->).
    destruct (Z.ltb_spec 0 (T * 1000 - now)); [reflexivity | lia].
Qed.

Lemma cooldown_none (r : Response) (now : Z) :
  cooldown r now = None <-> ~ exists T, throttles r now T.
Proof.
  split.
  - intros H (T & HT).
    assert (cooldown r now = Some (T * 1000 - now)) as H'
      by (apply cooldown_throttles; exists T; auto).
    congruence.
  - intros H. destruct (cooldown r now) as [d|] eqn:E; [|reflexivity].
    apply cooldown_throttles in E as (T & HT & _). exfalso. eauto.
Qed.

(** [#request] is: wait for the gate, send, and inspect what came back. *)
Lemma request_unfold (url : Js.URL) (init : RequestInit) (s : State) :
  request env url init s =
  let sent := mkSent (send_time s) url init in
  match network env (wire s) sent with
  | (Failed e, ms) => (Rejected e, at_arrival url init ms s)
  | (Responded r, ms) =>
      (Fulfilled r, snd (inspect r (at_arrival url init ms s)))
  end.
Proof.
  unfold request, bind, self, await, fetch, ret, elapse, at_arrival, send_time.
  cbn [this rt wire Js.clock Js.next_pid Js.console].
  destruct (network env (wire s) _) as [[e|r] ms]; [reflexivity|].
  rewrite inspect_cooldown. reflexivity.
Qed.

Lemma wire_inspect (r : Response) (s : State) :
  wire (snd (inspect r s)) = wire s.
Proof.
  rewrite inspect_cooldown. cbn [snd].
  destruct (cooldown r (Js.clock (rt s))); reflexivity.
Qed.

Lemma clock_inspect (r : Response) (s : State) :
  Js.clock (rt (snd (inspect r s))) = Js.clock (rt s).
Proof.
  rewrite inspect_cooldown. cbn [snd].
  destruct (cooldown r (Js.clock (rt s))); reflexivity.
Qed.

Lemma wire_request (url : Js.URL) (init : RequestInit) (s : State) :
  wire (snd (request env url init s)) =
  (wire s ++ [mkSent (send_time s) url init])%list.
Proof.
  rewrite request_unfold. cbv zeta.
  destruct (network env (wire s) _) as [[e|r] ms]; cbn [snd].
  - reflexivity.
  - rewrite wire_inspect. reflexivity.
Qed.

Lemma suspension_send_time (url : Js.URL) (init : RequestInit) (s : State) :
  suspension env url init s = Some (send_time s - Js.clock (rt s)).
Proof.
  unfold suspension. rewrite wire_request, rev_app_distr. reflexivity.
Qed.

(** The gate after a response that asks for a cooldown. *)
Lemma gate_after_cooldown (r : Response) (s : State) (d : Z) :
  cooldown r (Js.clock (rt s)) = Some d ->
  rateLimitDelay (this (snd (inspect r s))) =
  Js.mkPromise (Js.next_pid (rt s)) (Some (Js.clock (rt s) + d)).
Proof.
  intros H. rewrite inspect_cooldown, H. reflexivity.
Qed.

Lemma client_without_cooldown (r : Response) (s : State) :
  cooldown r (Js.clock (rt s)) = None -> this (snd (inspect r s)) = this s.
Proof.
  intros H. rewrite inspect_cooldown, H. reflexivity.
Qed.

End RateLimit.

Section GateTheorems.

Variable env : Env.

(** C1. For the response [r] that [#request] receives at time [now]: the
    call settles to [r] (no error is raised); the gate held afterwards
    differs from the one held before exactly when [X-RateLimit-Remaining]
    is present and parses to 0, [X-RateLimit-Reset] is present and parses to
    some [T], and [T * 1000 - now] is strictly positive; in that case the
    new gate is a freshly allocated promise that settles that many
    milliseconds after [now]; and when either header is absent the client
    object is left as it was. *)
Theorem gate_replaced_iff_throttled
    (url : Js.URL) (init : RequestInit) (s : State) (r : Response) (ms : N) :
  allocated s ->
  network env (wire s) (mkSent (send_time s) url init) = (Responded r, ms) ->
  let now := send_time s + Z.of_N ms in
  let s' := snd (request env url init s) in
  fst (request env url init s) = Fulfilled r /\
  (rateLimitDelay (this s') <> rateLimitDelay (this s)
   <-> exists T, throttles r now T) /\
  (forall T, throttles r now T ->
     rateLimitDelay (this s') =
     Js.mkPromise (Js.next_pid (rt s)) (Some (now + (T * 1000 - now)))) /\
  (Js.headers_get (resp_headers r) "X-RateLimit-Remaining" = None \/
   Js.headers_get (resp_headers r) "X-RateLimit-Reset" = None ->
   this s' = this s).
Proof.
  intros Halloc Hnet now s'. subst s'.
  rewrite request_unfold. cbv zeta. rewrite Hnet. cbn [fst snd].
  set (a := at_arrival url init ms s).
  assert (Js.clock (rt a) = now) as Hclock by reflexivity.
  assert (Js.next_pid (rt a) = Js.next_pid (rt s)) as Hpid by reflexivity.
  assert (this a = this s) as Hthis by reflexivity.
  split; [reflexivity|].
  destruct (cooldown r now) as [d|] eqn:Hcool.
  - pose proof Hcool as Hc. rewrite <- Hclock in Hc.
    apply gate_after_cooldown in Hc. rewrite Hpid, Hclock in Hc.
    apply cooldown_throttles in Hcool as (T & HT & ->).
    split; [|split].
    + split; [intros _; exists T; exact HT|].
      intros _ Heq. rewrite Hc in Heq. unfold allocated in Halloc.
      rewrite <- Heq in Halloc. cbn [Js.pid] in Halloc. lia.
    + intros T' HT'. rewrite Hc.
      destruct HT as (a1 & b1 & Ha1 & _ & Hb1 & Hp1 & _).
      destruct HT' as (a2 & b2 & Ha2 & _ & Hb2 & Hp2 & _).
      congruence.
    + destruct HT as (a1 & b1 & Ha1 & _ & Hb1 & _).
      intros [H|H]; congruence.
  - pose proof Hcool as Hc. rewrite <- Hclock in Hc.
    apply client_without_cooldown in Hc. rewrite Hthis in Hc.
    split; [|split].
    + split.
      * intros Hne. rewrite Hc in Hne. contradiction.
      * intros HT. apply cooldown_none in Hcool. contradiction.
    + intros T HT. apply cooldown_none in Hcool. exfalso. eauto.
    + intros _. exact Hc.
Qed.

End GateTheorems.

(* ===================================================================== *)
(** ** The entry points                                                   *)
(* ===================================================================== *)

Section EntryPoints.

Variable env : Env.

Lemma decode_unfold (r : Response) (s : State) :
  decode env r s =
  (match json r with
   | inl e => Rejected e
   | inr data =>
       if isError env data
       then Rejected (ApiError (Js.prop data "error") (status r))
       else Fulfilled data
   end, s).
Proof.
  unfold decode, bind, lift.
  destruct (json r) as [e|data]; [reflexivity|].
  unfold ret at 1. destruct (isError env data); reflexivity.
Qed.

(** Every entry point is its preparation followed, when a request is
    ready, by [#request] and the decoding of the response. *)
Lemma invoke_unfold (e : EntryPoint) (s : State) :
  invoke env e s =
  match plan env e (this s) with
  | Stops outcome => (outcome, s)
  | Sends u init =>
      match request env u init s with
      | (Fulfilled r, s') => (Returned (fst (decode env r s')), s')
      | (Rejected x, s') => (Returned (Rejected x), s')
      end
  end.
Proof.
  assert (forall endpoint query,
    (let '(p, s') := get env endpoint query s in (Returned p, s')) =
    match plan_get env endpoint query (this s) with
    | Stops outcome => (outcome, s)
    | Sends u init =>
        match request env u init s with
        | (Fulfilled r, s') => (Returned (fst (decode env r s')), s')
        | (Rejected x, s') => (Returned (Rejected x), s')
        end
    end) as Hget.
  { intros endpoint query. unfold get, plan_get, bind, self, lift.
    destruct (new_URL env endpoint (apiBaseUrl (this s))) as [x|u];
      [reflexivity|].
    unfold ret at 1.
    destruct (request env _ _ s) as [[r|x] s']; [|reflexivity].
    rewrite decode_unfold. reflexivity. }
  destruct e as [entityType mbid inc|endpoint query|endpoint data];
    cbn [invoke plan].
  - unfold lookup. destruct (validate env mbid); [|reflexivity].
    apply Hget.
  - apply Hget.
  - unfold post, bind, self, lift.
    destruct (new_URL env endpoint (apiBaseUrl (this s))) as [x|u];
      [reflexivity|].
    unfold ret at 1.
    destruct (request env _ _ s) as [[r|x] s']; [|reflexivity].
    rewrite decode_unfold. reflexivity.
Qed.

Lemma not_own_tail {A : Type} (l : list A) (x : A) : l <> (l ++ [x])%list.
Proof.
  intros H. apply (f_equal (@List.length A)) in H.
  rewrite length_app in H. cbn in H. lia.
Qed.

(** When a call exchanged a request for a response, it got through its
    preparation, sent at the time the gate allowed, and its result is the
    decoding of that response. *)
Lemma exchanged_inv (e : EntryPoint) (s : State) (sent : Sent) (r : Response) :
  exchanged env s (snd (invoke env e s)) sent r ->
  exists u init ms,
    plan env e (this s) = Sends u init /\
    sent = mkSent (send_time s) u init /\
    network env (wire s) sent = (Responded r, ms) /\
    invoke env e s =
    (Returned (fst (decode env r (snd (inspect r (at_arrival u init ms s))))),
     snd (inspect r (at_arrival u init ms s))).
Proof.
  intros [Hwire Hnet]. rewrite invoke_unfold in Hwire |- *.
  destruct (plan env e (this s)) as [outcome|u init].
  - cbn [snd] in Hwire. exfalso. exact (not_own_tail _ _ Hwire).
  - pose proof (wire_request env u init s) as Hw.
    assert (wire (snd (match request env u init s with
                       | (Fulfilled r0, s') =>
                           (Returned (fst (decode env r0 s')), s')
                       | (Rejected x, s') => (@Returned Js.Json (Rejected x), s')
                       end)) = wire (snd (request env u init s))) as Hsame
      by (destruct (request env u init s) as [[r0|x] s']; reflexivity).
    rewrite Hsame, Hw in Hwire. apply app_inj_tail in Hwire as [_ <-].
    rewrite request_unfold. cbv zeta.
    destruct (network env (wire s) _) as [[x|r0] ms] eqn:E;
      cbn [fst] in Hnet; [discriminate|].
    injection Hnet as ->.
    exists u, init, ms. repeat split; reflexivity.
Qed.

(** The outcome of a call whose endpoint resolved and whose request the
    network answered. *)
Lemma answered_call (e : EntryPoint) (s : State) (u : Js.URL)
    (init : RequestInit) (r : Response) :
  plan env e (this s) = Sends u init ->
  answers env s u init r ->
  fst (invoke env e s) =
  Returned (match json r with
            | inl x => Rejected x
            | inr data =>
                if isError env data
                then Rejected (ApiError (Js.prop data "error") (status r))
                else Fulfilled data
            end).
Proof.
  unfold answers. intros Hplan Hans.
  rewrite invoke_unfold, Hplan, request_unfold. cbv zeta.
  destruct (network env (wire s) _) as [[x|r0] ms]; cbn [fst] in Hans;
    [discriminate|].
  injection Hans as ->. cbn [fst]. rewrite decode_unfold. reflexivity.
Qed.

Lemma answered_get (endpoint : string) (query : option Query) (s : State)
    (u : Js.URL) (r : Response) :
  new_URL env endpoint (apiBaseUrl (this s)) = inr u ->
  answers env s (with_query u query) (mkInit "GET" (headers (this s)) None) r ->
  fst (get env endpoint query s) =
  match json r with
  | inl x => Rejected x
  | inr data =>
      if isError env data
      then Rejected (ApiError (Js.prop data "error") (status r))
      else Fulfilled data
  end.
Proof.
  intros Hu Hans.
  pose proof (answered_call (ViaGet endpoint query) s (with_query u query)
                (mkInit "GET" (headers (this s)) None) r) as H.
  cbn [plan invoke] in H. unfold plan_get in H. rewrite Hu in H.
  specialize (H eq_refl Hans).
  destruct (get env endpoint query s) as [p s']. cbn [fst] in *.
  injection H as ->. reflexivity.
Qed.

Lemma answered_post (endpoint : string) (payload : Js.Json) (s : State)
    (u : Js.URL) (r : Response) :
  new_URL env endpoint (apiBaseUrl (this s)) = inr u ->
  answers env s u
          (mkInit "POST" (headers (this s)) (Some (stringify env payload))) r ->
  fst (post env endpoint payload s) =
  match json r with
  | inl x => Rejected x
  | inr data =>
      if isError env data
      then Rejected (ApiError (Js.prop data "error") (status r))
      else Fulfilled data
  end.
Proof.
  intros Hu Hans.
  pose proof (answered_call (ViaPost endpoint payload) s u
                (mkInit "POST" (headers (this s)) (Some (stringify env payload)))
                r) as H.
  cbn [plan invoke] in H. rewrite Hu in H.
  specialize (H eq_refl Hans).
  destruct (post env endpoint payload s) as [p s']. cbn [fst] in *.
  injection H as ->. reflexivity.
Qed.

Lemma answered_lookup (entityType : EntityType) (mbid : string)
    (inc : option (list string)) (s : State) (u : Js.URL) (r : Response) :
  validate env mbid = true ->
  new_URL env (Js.join "/" [entity_name entityType; mbid])
          (apiBaseUrl (this s)) = inr u ->
  answers env s (with_query u (Some (inc_query inc)))
          (mkInit "GET" (headers (this s)) None) r ->
  fst (lookup env entityType mbid inc s) =
  Returned (match json r with
            | inl x => Rejected x
            | inr data =>
                if isError env data
                then Rejected (ApiError (Js.prop data "error") (status r))
                else Fulfilled data
            end).
Proof.
  intros Hv Hu Hans.
  pose proof (answered_call (ViaLookup entityType mbid inc) s
                (with_query u (Some (inc_query inc)))
                (mkInit "GET" (headers (this s)) None) r) as H.
  cbn [plan invoke] in H. unfold plan_get in H. rewrite Hv, Hu in H.
  exact (H eq_refl Hans).
Qed.

(** C3. For a response [r] whose decoded body is an error envelope
    ([isError] holds of it) with the message [msg] in its [error] field:
    [get], [post] and [lookup] alike, called with an endpoint that resolves
    against the base URL (and, for [lookup], an identifier that [validate]
    accepts), fail with an [ApiError] that carries [msg] and the status of
    [r] when the network answers their request with [r]. *)
Theorem error_envelope_becomes_ApiError
    (s : State) (r : Response) (data : Js.Json) (msg : string) :
  json r = inr data ->
  isError env data = true ->
  Js.prop data "error" = Some (Js.JString msg) ->
  (forall endpoint query u,
     new_URL env endpoint (apiBaseUrl (this s)) = inr u ->
     answers env s (with_query u query)
             (mkInit "GET" (headers (this s)) None) r ->
     fst (get env endpoint query s) =
     Rejected (ApiError (Some (Js.JString msg)) (status r))) /\
  (forall endpoint payload u,
     new_URL env endpoint (apiBaseUrl (this s)) = inr u ->
     answers env s u
             (mkInit "POST" (headers (this s)) (Some (stringify env payload))) r ->
     fst (post env endpoint payload s) =
     Rejected (ApiError (Some (Js.JString msg)) (status r))) /\
  (forall entityType mbid inc u,
     validate env mbid = true ->
     new_URL env (Js.join "/" [entity_name entityType; mbid])
             (apiBaseUrl (this s)) = inr u ->
     answers env s (with_query u (Some (inc_query inc)))
             (mkInit "GET" (headers (this s)) None) r ->
     fst (lookup env entityType mbid inc s) =
     Returned (Rejected (ApiError (Some (Js.JString msg)) (status r)))).
Proof.
  intros Hjson Herr Hmsg. split; [|split].
  - intros endpoint query u Hu Hans.
    rewrite (answered_get endpoint query s u r Hu Hans), Hjson, Herr, Hmsg.
    reflexivity.
  - intros endpoint payload u Hu Hans.
    rewrite (answered_post endpoint payload s u r Hu Hans), Hjson, Herr, Hmsg.
    reflexivity.
  - intros entityType mbid inc u Hv Hu Hans.
    rewrite (answered_lookup entityType mbid inc s u r Hv Hu Hans),
      Hjson, Herr, Hmsg.
    reflexivity.
Qed.

(** C10. For a response [r] whose body decodes to [data]: [get] and [post]
    (and [lookup] through [get]), called with an endpoint that resolves and
    answered by the network with [r], return [data] itself when [isError]
    does not hold of it, whatever the status of [r]; and they fail only
    when [isError] holds of [data], with the [ApiError]. *)
Theorem status_alone_never_fails
    (s : State) (r : Response) (data : Js.Json) :
  json r = inr data ->
  (forall endpoint query u,
     new_URL env endpoint (apiBaseUrl (this s)) = inr u ->
     answers env s (with_query u query)
             (mkInit "GET" (headers (this s)) None) r ->
     (isError env data = false ->
      fst (get env endpoint query s) = Fulfilled data) /\
     (forall x, fst (get env endpoint query s) = Rejected x ->
        isError env data = true /\
        x = ApiError (Js.prop data "error") (status r))) /\
  (forall endpoint payload u,
     new_URL env endpoint (apiBaseUrl (this s)) = inr u ->
     answers env s u
             (mkInit "POST" (headers (this s)) (Some (stringify env payload))) r ->
     (isError env data = false ->
      fst (post env endpoint payload s) = Fulfilled data) /\
     (forall x, fst (post env endpoint payload s) = Rejected x ->
        isError env data = true /\
        x = ApiError (Js.prop data "error") (status r))) /\
  (forall entityType mbid inc u,
     validate env mbid = true ->
     new_URL env (Js.join "/" [entity_name entityType; mbid])
             (apiBaseUrl (this s)) = inr u ->
     answers env s (with_query u (Some (inc_query inc)))
             (mkInit "GET" (headers (this s)) None) r ->
     isError env data = false ->
     fst (lookup env entityType mbid inc s) = Returned (Fulfilled data)).
Proof.
  intros Hjson. split; [|split].
  - intros endpoint query u Hu Hans.
    rewrite (answered_get endpoint query s u r Hu Hans), Hjson.
    destruct (isError env data); split; try discriminate; try reflexivity.
    intros x [= <-]. split; reflexivity.
  - intros endpoint payload u Hu Hans.
    rewrite (answered_post endpoint payload s u r Hu Hans), Hjson.
    destruct (isError env data); split; try discriminate; try reflexivity.
    intros x [= <-]. split; reflexivity.
  - intros entityType mbid inc u Hv Hu Hans Herr.
    rewrite (answered_lookup entityType mbid inc s u r Hv Hu Hans),
      Hjson, Herr.
    reflexivity.
Qed.

(** C4. With an identifier that [validate] rejects, [lookup] throws the
    assertion error while it runs (it returns no promise) and the state is
    the one it started from: nothing was sent, no time has passed. *)
Theorem lookup_rejects_malformed_mbid
    (entityType : EntityType) (mbid : string) (inc : option (list string))
    (s : State) :
  validate env mbid = false ->
  lookup env entityType mbid inc s =
  (Threw (AssertionError (mbid ++ " is not a valid MBID")), s).
Proof.
  intros H. unfold lookup. rewrite H. reflexivity.
Qed.

Lemma this_inspect (r : Response) (s : State) :
  this (snd (inspect r s)) =
  mkClient (apiBaseUrl (this s)) (headers (this s))
           (rateLimitDelay (this (snd (inspect r s)))).
Proof.
  rewrite inspect_cooldown. cbn [snd].
  destruct (cooldown r (Js.clock (rt s))); [reflexivity|].
  cbn [this]. destruct (this s); reflexivity.
Qed.

Lemma this_request (u : Js.URL) (init : RequestInit) (s : State) :
  this (snd (request env u init s)) =
  mkClient (apiBaseUrl (this s)) (headers (this s))
           (rateLimitDelay (this (snd (request env u init s)))).
Proof.
  rewrite request_unfold. cbv zeta.
  destruct (network env (wire s) _) as [[x|r] ms]; cbn [snd].
  - cbn [at_arrival this]. destruct (this s); reflexivity.
  - rewrite this_inspect at 1. reflexivity.
Qed.

(** C7. After any call of [lookup], [get] or [post] the client object is
    the one before the call with at most its gate replaced: the base URL
    and the headers are the same. *)
Theorem only_the_gate_changes (e : EntryPoint) (s : State) :
  let s' := snd (invoke env e s) in
  apiBaseUrl (this s') = apiBaseUrl (this s) /\
  headers (this s') = headers (this s) /\
  this s' = mkClient (apiBaseUrl (this s)) (headers (this s))
                     (rateLimitDelay (this s')).
Proof.
  cbv zeta. rewrite invoke_unfold.
  destruct (plan env e (this s)) as [outcome|u init].
  - cbn [snd]. destruct (this s); repeat split; reflexivity.
  - pose proof (this_request u init s) as H.
    destruct (request env u init s) as [[r|x] s1]; cbn [snd] in *;
      rewrite H; repeat split; reflexivity.
Qed.

Lemma run_app (os1 os2 : list Occurrence) (s : State) :
  run env (os1 ++ os2) s = run env os2 (run env os1 s).
Proof. unfold run. apply fold_left_app. Qed.

(** The state in which the rest of [#request] runs for the response that
    an occurrence brings has the client and the allocator of the state
    before, and the clock at the time of arrival. *)
Lemma step_brings (s : State) (o : Occurrence) (r : Response) (now : Z) :
  brings env s o = Some (r, now) ->
  exists a,
    step env s o = snd (inspect r a) /\
    this a = this s /\ Js.clock (rt a) = now /\
    Js.next_pid (rt a) = Js.next_pid (rt s).
Proof.
  destruct o as [e|r0|ms]; cbn [brings step].
  - rewrite invoke_unfold.
    destruct (plan env e (this s)) as [outcome|u init]; [discriminate|].
    rewrite request_unfold. cbv zeta.
    destruct (network env (wire s) _) as [[x|r0] ms]; [discriminate|].
    intros [= -> <-]. exists (at_arrival u init ms s).
    repeat split; reflexivity.
  - intros [= -> <-]. exists s. repeat split; reflexivity.
  - discriminate.
Qed.

Lemma step_brings_nothing (s : State) (o : Occurrence) :
  brings env s o = None -> this (step env s o) = this s.
Proof.
  destruct o as [e|r0|ms]; cbn [brings step].
  - rewrite invoke_unfold.
    destruct (plan env e (this s)) as [outcome|u init]; [reflexivity|].
    rewrite request_unfold. cbv zeta.
    destruct (network env (wire s) _) as [[x|r0] ms]; [reflexivity|discriminate].
  - discriminate.
  - reflexivity.
Qed.

(** One occurrence renews the deadline of the gate or leaves it. *)
Lemma step_renewed (s : State) (o : Occurrence) :
  Js.settles (rateLimitDelay (this (step env s o))) =
  renewed env s o (Js.settles (rateLimitDelay (this s))).
Proof.
  unfold renewed. destruct (brings env s o) as [[r now]|] eqn:E.
  - destruct (step_brings s o r now E) as (a & -> & Hthis & Hclock & _).
    rewrite <- Hclock, <- Hthis.
    destruct (cooldown r (Js.clock (rt a))) as [d|] eqn:Hcool.
    + rewrite (gate_after_cooldown r a d Hcool). reflexivity.
    + rewrite (client_without_cooldown r a Hcool). reflexivity.
  - rewrite (step_brings_nothing s o E). reflexivity.
Qed.

Lemma run_last_deadline (os : list Occurrence) :
  forall s,
    Js.settles (rateLimitDelay (this (run env os s))) =
    last_deadline env os s (Js.settles (rateLimitDelay (this s))).
Proof.
  induction os as [|o os IH]; intros s; [reflexivity|].
  change (run env (o :: os) s) with (run env os (step env s o)).
  rewrite IH, step_renewed. reflexivity.
Qed.

(** C5. The client holds one gate. When a call or an arriving response
    brings a response that asks, at its time of arrival [now], for a
    cooldown of [d] milliseconds, the gate becomes a newly allocated promise
    that settles at [now + d], whatever gate was held before and whether or
    not it was still pending: nothing of the earlier deadline is kept or
    added. So after any schedule of calls, arrivals and waits the deadline
    of the gate is that of the last cooldown asked for alone (and the one
    held at the start when none was asked for). *)
Theorem gate_holds_one_cooldown :
  (forall (s : State) (o : Occurrence) (r : Response) (now d : Z),
     brings env s o = Some (r, now) ->
     cooldown r now = Some d ->
     rateLimitDelay (this (step env s o)) =
     Js.mkPromise (Js.next_pid (rt s)) (Some (now + d))) /\
  (forall (os : list Occurrence) (s : State),
     Js.settles (rateLimitDelay (this (run env os s))) =
     last_deadline env os s (Js.settles (rateLimitDelay (this s)))) /\
  (forall (os : list Occurrence) (s : State) (o : Occurrence)
          (r : Response) (now d : Z),
     brings env (run env os s) o = Some (r, now) ->
     cooldown r now = Some d ->
     Js.settles (rateLimitDelay (this (run env (os ++ [o]) s))) =
     Some (now + d)).
Proof.
  assert (forall (s : State) (o : Occurrence) (r : Response) (now d : Z),
     brings env s o = Some (r, now) ->
     cooldown r now = Some d ->
     rateLimitDelay (this (step env s o)) =
     Js.mkPromise (Js.next_pid (rt s)) (Some (now + d))) as Hstep.
  { intros s o r now d Hb Hcool.
    destruct (step_brings s o r now Hb) as (a & -> & _ & Hclock & Hpid).
    rewrite <- Hclock in Hcool |- *. rewrite <- Hpid.
    exact (gate_after_cooldown r a d Hcool). }
  split; [exact Hstep|]. split; [exact run_last_deadline|].
  intros os s o r now d Hb Hcool. rewrite run_app.
  change (run env [o] (run env os s)) with (step env (run env os s) o).
  rewrite (Hstep _ o r now d Hb Hcool). reflexivity.
Qed.

(** Every promise a client holds along a schedule was allocated before. *)
Lemma allocated_step (s : State) (o : Occurrence) :
  allocated s -> allocated (step env s o).
Proof.
  unfold allocated. intros H.
  destruct (brings env s o) as [[r now]|] eqn:E.
  - destruct (step_brings s o r now E) as (a & -> & Hthis & _ & Hpid).
    rewrite inspect_cooldown. cbn [snd].
    destruct (cooldown r (Js.clock (rt a))); cbn; rewrite ?Hthis, ?Hpid; lia.
  - rewrite (step_brings_nothing s o E).
    destruct o as [e|r0|ms]; cbn [brings step] in *.
    + rewrite invoke_unfold.
      destruct (plan env e (this s)) as [outcome|u init]; [exact H|].
      rewrite request_unfold. cbv zeta.
      destruct (network env (wire s) _) as [[x|r0] ms]; [exact H|discriminate].
    + discriminate.
    + exact H.
Qed.

Lemma allocated_run (os : list Occurrence) :
  forall s, allocated s -> allocated (run env os s).
Proof.
  induction os as [|o os IH]; intros s H; [exact H|].
  change (run env (o :: os) s) with (run env os (step env s o)).
  apply IH, allocated_step, H.
Qed.

End EntryPoints.

(* ===================================================================== *)
(** ** Requests after a cooldown                                          *)
(* ===================================================================== *)

Section AfterCooldown.

Variable env : Env.

Lemma throttles_cooldown (r : Response) (now T : Z) :
  throttles r now T -> cooldown r now = Some (T * 1000 - now).
Proof.
  intros H. apply cooldown_throttles. exists T. split; [exact H|reflexivity].
Qed.

(** The send time of a request that enters [ms] milliseconds after a
    cooldown until second [T] was installed. *)
Lemma send_time_after_cooldown (r : Response) (s : State) (T : Z) (ms : N) :
  throttles r (Js.clock (rt s)) T ->
  send_time (elapse ms (snd (inspect r s))) =
  Z.max (Js.clock (rt s) + Z.of_N ms) (T * 1000).
Proof.
  intros H. apply throttles_cooldown in H.
  unfold send_time, elapse. cbn [this rt Js.clock].
  rewrite (gate_after_cooldown r s _ H), clock_inspect.
  unfold Js.resumes. cbn [Js.settles]. f_equal. lia.
Qed.

(** C2, as amended. After a response with [X-RateLimit-Remaining: 0] and
    [X-RateLimit-Reset: T], [T * 1000 > now], the cooldown [T * 1000 - now]
    being one that the timer can wait for (at most [2^31 - 1] ms), a
    request that enters [#request] [ms] milliseconds later (the gate still
    being this one) is not sent before the time [T * 1000]: it is suspended
    for what is left of the window, [max 0 (T * 1000 - now - ms)]. That is
    the whole [T * 1000 - now] for a request entering at once, and nothing
    for a request entering when the window has elapsed. *)
Theorem request_waits_for_rest_of_cooldown
    (r : Response) (s : State) (T : Z) (ms : N)
    (url : Js.URL) (init : RequestInit) :
  throttles r (Js.clock (rt s)) T ->
  T * 1000 - Js.clock (rt s) <= timer_max ->
  let now := Js.clock (rt s) in
  let entered := elapse ms (snd (inspect r s)) in
  suspension env url init entered = Some (Z.max 0 (T * 1000 - now - Z.of_N ms)) /\
  T * 1000 <= send_time entered /\
  (ms = 0%N -> suspension env url init entered = Some (T * 1000 - now)) /\
  (T * 1000 - now <= Z.of_N ms -> suspension env url init entered = Some 0).
Proof.
  intros H _ now entered.
  assert (0 < T * 1000 - now) as Hpos
    by (destruct H as (a & b & _ & _ & _ & _ & Hp); exact Hp).
  assert (Js.clock (rt entered) = now + Z.of_N ms) as Hclock.
  { unfold entered, elapse. cbn [rt Js.clock]. rewrite clock_inspect.
    reflexivity. }
  pose proof (send_time_after_cooldown r s T ms H) as Hsend.
  fold now in Hsend. fold entered in Hsend.
  rewrite suspension_send_time, Hsend, Hclock.
  split; [f_equal; lia|].
  split; [lia|].
  split.
  - intros ->. f_equal. cbn [Z.of_N]. lia.
  - intros Hlate. f_equal. lia.
Qed.

(** The claim as C2 words it fails: a request entering 400 ms into a
    cooldown of 1000 ms is suspended for 600 ms, not for 1000 ms or more. *)
Lemma later_request_waits_less : ~ suspended_for_whole_cooldown.
Proof.
  intros H.
  specialize (H (Sample.serve Sample.found) Sample.throttled Sample.start
                1 400%N Sample.here Sample.plain 600).
  assert (throttles Sample.throttled (Js.clock (rt Sample.start)) 1) as Hthr.
  { exists "0", "1". repeat split. }
  specialize (H Hthr).
  assert (1 * 1000 - Js.clock (rt Sample.start) <= 600) as Habs.
  { apply H; [reflexivity|reflexivity]. }
  cbn in Habs. lia.
Qed.

End AfterCooldown.

(* ===================================================================== *)
(** ** Query strings                                                      *)
(* ===================================================================== *)

Section Urlencoded.

Ltac each_byte c := destruct c as [[] [] [] [] [] [] [] []].

Lemma all_app (P : ascii -> bool) (a b : string) :
  all P (a ++ b) = all P a && all P b.
Proof.
  induction a as [|c a IH]; cbn [append all]; [reflexivity|].
  rewrite IH. apply andb_assoc.
Qed.

Lemma all_impl (P Q : ascii -> bool) (s : string) :
  (forall c, P c = true -> Q c = true) -> all P s = true -> all Q s = true.
Proof.
  intros HPQ. induction s as [|c s IH]; cbn [all]; [reflexivity|].
  intros H. apply andb_true_iff in H as [Hc Hs].
  rewrite (HPQ c Hc), (IH Hs). reflexivity.
Qed.

Lemma token_encode_byte (c : ascii) : all token (Js.form_encode_byte c) = true.
Proof. each_byte c; vm_compute; reflexivity. Qed.

Lemma token_encode (s : string) : all token (Js.form_encode s) = true.
Proof.
  induction s as [|c s IH]; cbn [Js.form_encode]; [reflexivity|].
  rewrite all_app, token_encode_byte, IH. reflexivity.
Qed.

Lemma token_plain (c : ascii) : token c = true -> plain c = true.
Proof.
  unfold token, plain. intros ->. reflexivity.
Qed.

Lemma token_not_eq (c : ascii) : token c = true -> Ascii.eqb c "=" = false.
Proof. each_byte c; vm_compute; congruence. Qed.

Lemma token_no_amp (c : ascii) : token c = true -> no_amp c = true.
Proof. each_byte c; vm_compute; congruence. Qed.

Lemma plain_safe (special : bool) (c : ascii) :
  plain c = true ->
  Js.tab_or_newline c = false /\ Js.query_unsafe special c = false /\
  Ascii.eqb c "?" = false.
Proof. destruct special; each_byte c; vm_compute; intuition congruence. Qed.

Lemma plain_pair (p : string * string) : all plain (Js.form_pair p) = true.
Proof.
  unfold Js.form_pair. rewrite !all_app.
  rewrite (all_impl token plain _ token_plain (token_encode (fst p))).
  rewrite (all_impl token plain _ token_plain (token_encode (snd p))).
  reflexivity.
Qed.

Lemma no_amp_pair (p : string * string) : all no_amp (Js.form_pair p) = true.
Proof.
  unfold Js.form_pair. rewrite !all_app.
  rewrite (all_impl token no_amp _ token_no_amp (token_encode (fst p))).
  rewrite (all_impl token no_amp _ token_no_amp (token_encode (snd p))).
  reflexivity.
Qed.

Lemma plain_toString (ps : Js.Pairs) : all plain (Js.toString ps) = true.
Proof.
  unfold Js.toString. induction ps as [|p [|p' ps] IH].
  - reflexivity.
  - apply plain_pair.
  - change (all plain (Js.form_pair p ++ "&" ++ Js.join "&" (map Js.form_pair (p' :: ps))) = true).
    rewrite !all_app, plain_pair, IH. reflexivity.
Qed.

(** A serialized query passes the [search] setter unchanged. *)
Lemma query_encode_plain (special : bool) (s : string) :
  all plain s = true -> Js.query_encode special s = s.
Proof.
  induction s as [|c s IH]; cbn [all Js.query_encode]; [reflexivity|].
  intros H. apply andb_true_iff in H as [Hc Hs].
  destruct (plain_safe special c Hc) as (-> & -> & _).
  rewrite (IH Hs). reflexivity.
Qed.

Lemma strip_question_plain (s : string) :
  all plain s = true -> Js.strip_question s = s.
Proof.
  destruct s as [|c s]; [reflexivity|]. cbn [all]. intros H.
  apply andb_true_iff in H as [Hc _].
  destruct (plain_safe true c Hc) as (_ & _ & Hq).
  each_byte c; try reflexivity. discriminate Hq.
Qed.

Lemma cut_at_token (a b : string) :
  all token a = true -> Js.cut_at "=" (a ++ "=" ++ b) = (a, b).
Proof.
  induction a as [|c a IH]; cbn [all]; intros H.
  - reflexivity.
  - apply andb_true_iff in H as [Hc Ha].
    change (String c a ++ "=" ++ b) with (String c (a ++ "=" ++ b)).
    cbn [Js.cut_at]. rewrite (token_not_eq c Hc), (IH Ha). reflexivity.
Qed.

Lemma split_on_cons (a rest : string) :
  all no_amp a = true ->
  Js.split_on "&" (a ++ "&" ++ rest) = a :: Js.split_on "&" rest.
Proof.
  induction a as [|c a IH]; cbn [all]; intros H.
  - reflexivity.
  - apply andb_true_iff in H as [Hc Ha]. unfold no_amp in Hc.
    apply negb_true_iff in Hc.
    change (String c a ++ "&" ++ rest) with (String c (a ++ "&" ++ rest)).
    cbn [Js.split_on]. rewrite Hc, (IH Ha). reflexivity.
Qed.

Lemma split_on_single (a : string) :
  all no_amp a = true -> Js.split_on "&" a = [a].
Proof.
  induction a as [|c a IH]; cbn [all]; intros H.
  - reflexivity.
  - apply andb_true_iff in H as [Hc Ha]. unfold no_amp in Hc.
    apply negb_true_iff in Hc. cbn [Js.split_on]. rewrite Hc, (IH Ha).
    reflexivity.
Qed.

Lemma split_on_join (x : string) (xs : list string) :
  Forall (fun a => all no_amp a = true) (x :: xs) ->
  Js.split_on "&" (Js.join "&" (x :: xs)) = x :: xs.
Proof.
  revert x. induction xs as [|y ys IH]; intros x H.
  - apply split_on_single. exact (Forall_inv H).
  - change (Js.join "&" (x :: y :: ys)) with (x ++ "&" ++ Js.join "&" (y :: ys)).
    rewrite (split_on_cons _ _ (Forall_inv H)), (IH y (Forall_inv_tail H)).
    reflexivity.
Qed.

Lemma plus_to_space_app (a b : string) :
  Js.plus_to_space (a ++ b) = Js.plus_to_space a ++ Js.plus_to_space b.
Proof.
  induction a as [|c a IH]; cbn [append Js.plus_to_space]; [reflexivity|].
  rewrite IH. reflexivity.
Qed.

Lemma decode_encoded_byte (c : ascii) (t : string) :
  Js.percent_decode_from 0 (Js.plus_to_space (Js.form_encode_byte c) ++ t) =
  String c (Js.percent_decode_from 0 t).
Proof. each_byte c; reflexivity. Qed.

(** Decoding undoes encoding, byte for byte. *)
Lemma form_decode_encode (s : string) : Js.form_decode (Js.form_encode s) = s.
Proof.
  unfold Js.form_decode, Js.percent_decode.
  induction s as [|c s IH]; cbn [Js.form_encode]; [reflexivity|].
  rewrite plus_to_space_app, decode_encoded_byte, IH. reflexivity.
Qed.

Lemma parse_form_pair (p : string * string) : Js.parse_pair (Js.form_pair p) = p.
Proof.
  destruct p as [n v]. unfold Js.parse_pair, Js.form_pair. cbn [fst snd].
  rewrite (cut_at_token _ _ (token_encode n)), !form_decode_encode.
  reflexivity.
Qed.

Lemma nonempty_pair (p : string * string) : Js.nonempty (Js.form_pair p) = true.
Proof.
  unfold Js.form_pair. destruct (Js.form_encode (fst p)); reflexivity.
Qed.

(** The urlencoded parser reads back what the serializer wrote. *)
Lemma parse_toString (ps : Js.Pairs) : Js.parse (Js.toString ps) = ps.
Proof.
  destruct ps as [|p ps]; [reflexivity|].
  unfold Js.parse, Js.toString. cbn [map].
  rewrite split_on_join.
  - change (Js.form_pair p :: map Js.form_pair ps) with (map Js.form_pair (p :: ps)).
    generalize (p :: ps). intros l. induction l as [|a l IH]; [reflexivity|].
    cbn [map filter]. rewrite nonempty_pair. cbn [map].
    rewrite parse_form_pair. f_equal. exact IH.
  - change (Js.form_pair p :: map Js.form_pair ps) with (map Js.form_pair (p :: ps)).
    apply Forall_forall. intros a Ha. apply in_map_iff in Ha as (x & <- & _).
    apply no_amp_pair.
Qed.

Lemma toString_cons (p : string * string) (ps : Js.Pairs) :
  exists c t, Js.toString (p :: ps) = String c t.
Proof.
  unfold Js.toString. cbn [map].
  pose proof (nonempty_pair p) as H.
  destruct (Js.form_pair p) as [|c t]; [discriminate|].
  destruct ps as [|p' ps]; cbn [map Js.join append]; eauto.
Qed.

(** Assigning a serialized list of pairs to [search]: the query is that
    text, and no query at all for the empty list. *)
Lemma set_search_toString (u : Js.URL) (ps : Js.Pairs) :
  Js.set_search u (Js.toString ps) =
  Js.mkURL (Js.scheme u) (Js.authority u) (Js.path u)
           (match ps with [] => None | _ => Some (Js.toString ps) end)
           (Js.fragment u).
Proof.
  destruct ps as [|p ps]; [reflexivity|].
  destruct (toString_cons p ps) as (c & t & E).
  pose proof (plain_toString (p :: ps)) as Hplain.
  rewrite E in *. cbn [Js.set_search].
  rewrite (strip_question_plain _ Hplain), (query_encode_plain _ _ Hplain).
  reflexivity.
Qed.

Lemma searchParams_set_search (u : Js.URL) (ps : Js.Pairs) :
  Js.searchParams (Js.set_search u (Js.toString ps)) = ps.
Proof.
  rewrite set_search_toString. unfold Js.searchParams. cbn [Js.query].
  destruct ps as [|p ps]; [reflexivity|]. apply parse_toString.
Qed.

(** Of two assignments to [search] in a row the second decides. *)
Lemma set_search_twice (u : Js.URL) (a b : string) :
  Js.set_search (Js.set_search u a) b = Js.set_search u b.
Proof.
  destruct a, b; reflexivity.
Qed.

Lemma with_query_assign (u : Js.URL) (q : Query) :
  with_query u (Some q) = assign_defined u q.
Proof.
  unfold with_query, assign_defined. apply set_search_twice.
Qed.

Lemma filter_defined_twice (q : Query) :
  filter (fun kv => defined (snd kv)) (filter (fun kv => defined (snd kv)) q) =
  filter (fun kv => defined (snd kv)) q.
Proof.
  induction q as [|[k v] q IH]; cbn [filter snd]; [reflexivity|].
  destruct (defined v) eqn:E; cbn [filter snd]; rewrite ?E, IH; reflexivity.
Qed.

End Urlencoded.

(* ===================================================================== *)
(** ** Paths and query parameters                                         *)
(* ===================================================================== *)

Section Queries.

Variable env : Env.

(** The request a call has put on the wire is the one it prepared. *)
Lemma sent_is_planned (e : EntryPoint) (s : State) (sent : Sent) :
  wire (snd (invoke env e s)) = (wire s ++ [sent])%list ->
  exists u init,
    plan env e (this s) = Sends u init /\ sent = mkSent (send_time s) u init.
Proof.
  intros Hwire. rewrite invoke_unfold in Hwire.
  destruct (plan env e (this s)) as [outcome|u init].
  - cbn [snd] in Hwire. exfalso. exact (not_own_tail _ _ Hwire).
  - pose proof (wire_request env u init s) as Hw.
    destruct (request env u init s) as [[r0|x] s']; cbn [snd] in *;
      rewrite Hw in Hwire; apply app_inj_tail in Hwire as [_ <-]; eauto.
Qed.

Lemma get_sent (endpoint : string) (query : option Query) (s : State) (sent : Sent) :
  wire (snd (get env endpoint query s)) = (wire s ++ [sent])%list ->
  exists u,
    new_URL env endpoint (apiBaseUrl (this s)) = inr u /\
    sent = mkSent (send_time s) (with_query u query)
                  (mkInit "GET" (headers (this s)) None).
Proof.
  intros Hwire.
  assert (snd (invoke env (ViaGet endpoint query) s) =
          snd (get env endpoint query s)) as E
    by (cbn [invoke]; destruct (get env endpoint query s); reflexivity).
  rewrite <- E in Hwire.
  apply sent_is_planned in Hwire as (u & init & Hplan & ->).
  cbn [plan] in Hplan. unfold plan_get in Hplan.
  destruct (new_URL env endpoint (apiBaseUrl (this s))) as [x|u0];
    [discriminate|].
  injection Hplan as <- <-. exists u0. split; reflexivity.
Qed.

Lemma unique_value {A : Type} (l : list (string * A)) (k : string) (v v' : A) :
  NoDup (map fst l) -> In (k, v) l -> In (k, v') l -> v = v'.
Proof.
  induction l as [|[k0 v0] l IH]; cbn [map fst In]; intros Hnd Hv Hv'.
  - contradiction.
  - apply NoDup_cons_iff in Hnd as [Hnotin Hnd].
    destruct Hv as [Hv|Hv], Hv' as [Hv'|Hv'].
    + congruence.
    + exfalso. apply Hnotin. injection Hv as -> _.
      apply in_map_iff. exists (k, v'). auto.
    + exfalso. apply Hnotin. injection Hv' as -> _.
      apply in_map_iff. exists (k, v). auto.
    + exact (IH Hnd Hv Hv').
Qed.

(** C6. With an identifier that [validate] accepts, [lookup] is the call
    of [get] with the path [<kind>/<mbid>] and the one query parameter
    [inc], whose value is the include tokens joined by [+] (the empty
    string when the list is empty or left out). The request it puts on the
    wire was resolved from that path, and its query is the serialization of
    that one parameter: it reads back as [inc] with the joined tokens, and
    it is [inc=] when there are none. *)
Theorem lookup_delegates_to_get
    (entityType : EntityType) (mbid : string) (inc : option (list string))
    (s : State) :
  validate env mbid = true ->
  let tokens := match inc with Some l => l | None => [] end in
  let endpoint := entity_name entityType ++ "/" ++ mbid in
  let query := [("inc", QString (Js.join "+" tokens))] in
  lookup env entityType mbid inc s =
    (let '(p, s') := get env endpoint (Some query) s in (Returned p, s')) /\
  URLSearchParams query = [("inc", Js.join "+" tokens)] /\
  (tokens = [] -> Js.toString (URLSearchParams query) = "inc=") /\
  (forall sent,
     wire (snd (lookup env entityType mbid inc s)) = (wire s ++ [sent])%list ->
     exists u,
       new_URL env endpoint (apiBaseUrl (this s)) = inr u /\
       Js.path (sent_url sent) = Js.path u /\
       Js.query (sent_url sent) =
         Some ("inc=" ++ Js.form_encode (Js.join "+" tokens)) /\
       Js.searchParams (sent_url sent) = [("inc", Js.join "+" tokens)]).
Proof.
  intros Hvalid tokens endpoint query.
  assert (lookup env entityType mbid inc s =
          (let '(p, s') := get env endpoint (Some query) s in (Returned p, s')))
    as Hlookup by (unfold lookup; rewrite Hvalid; reflexivity).
  split; [exact Hlookup|].
  split; [reflexivity|].
  split; [intros ->; reflexivity|].
  intros sent Hwire. rewrite Hlookup in Hwire.
  assert (wire (snd (get env endpoint (Some query) s)) =
          (wire s ++ [sent])%list) as Hget
    by (destruct (get env endpoint (Some query) s); exact Hwire).
  apply get_sent in Hget as (u & Hu & ->).
  exists u. split; [exact Hu|]. cbn [sent_url].
  rewrite with_query_assign. unfold assign_defined.
  change (filter (fun kv => defined (snd kv)) query) with query.
  change (URLSearchParams query) with [("inc", Js.join "+" tokens)].
  rewrite searchParams_set_search, set_search_toString.
  repeat split; reflexivity.
Qed.

(** C8. For a query mapping handed to [get] (its keys distinct, as the
    keys of an object are): the query of the URL that goes on the wire is
    the serialization of the entries with a defined value, in their order,
    and no query at all when there is none; read back, it gives exactly
    those entries, so a key whose value is [undefined] does not occur in it
    and every key with a defined value occurs with its value. *)
Theorem undefined_values_are_left_out
    (endpoint : string) (q : Query) (s : State) (sent : Sent) :
  NoDup (map fst q) ->
  wire (snd (get env endpoint (Some q) s)) = (wire s ++ [sent])%list ->
  let kept := URLSearchParams (filter (fun kv => defined (snd kv)) q) in
  Js.query (sent_url sent) =
    match kept with [] => None | _ => Some (Js.toString kept) end /\
  Js.searchParams (sent_url sent) = kept /\
  (forall k, In (k, QUndefined) q ->
     ~ In k (map fst (Js.searchParams (sent_url sent)))) /\
  (forall k v, In (k, v) q -> defined v = true ->
     In (k, to_string v) (Js.searchParams (sent_url sent))).
Proof.
  intros Hnd Hwire kept.
  apply get_sent in Hwire as (u & _ & ->). cbn [sent_url].
  rewrite with_query_assign. unfold assign_defined. fold kept.
  rewrite searchParams_set_search, set_search_toString. cbn [Js.query].
  split; [reflexivity|]. split; [reflexivity|]. split.
  - intros k Hk Hin. unfold kept, URLSearchParams in Hin.
    rewrite map_map in Hin. cbn [fst] in Hin.
    apply in_map_iff in Hin as ([k' v] & Hkk & Hf). cbn [fst] in Hkk. subst k'.
    apply filter_In in Hf as [Hq Hdef]. cbn [snd] in Hdef.
    rewrite (unique_value q k v QUndefined Hnd Hq Hk) in Hdef.
    discriminate Hdef.
  - intros k v Hq Hdef. unfold kept, URLSearchParams.
    apply in_map_iff. exists (k, v). split; [reflexivity|].
    apply filter_In. split; [exact Hq|exact Hdef].
Qed.

(** C9. Filtering the entries with a defined value is idempotent; so
    assigning the serialization of the filtered entries to [search] a
    second time, or filtering before filtering, leaves the URL as after the
    one assignment; and the two assignments that [get] makes in a row
    leave the URL as that one assignment does. *)
Theorem filtering_is_idempotent (u : Js.URL) (q : Query) :
  let keep := filter (fun kv : string * QValue => defined (snd kv)) in
  keep (keep q) = keep q /\
  assign_defined (assign_defined u q) q = assign_defined u q /\
  assign_defined u (keep q) = assign_defined u q /\
  with_query u (Some q) = assign_defined u q /\
  Js.search (with_query u (Some q)) = Js.search (assign_defined u q).
Proof.
  cbv zeta. split; [apply filter_defined_twice|].
  split; [apply set_search_twice|].
  split; [unfold assign_defined; rewrite filter_defined_twice; reflexivity|].
  split; [apply with_query_assign|].
  rewrite with_query_assign. reflexivity.
Qed.

End Queries.

(* ===================================================================== *)
(** ** The statements at work on the sample environment                   *)
(* ===================================================================== *)

Example parseInt_zero : Js.parseInt "0" = Some 0.
Proof. reflexivity. Qed.

Example parseInt_minus_zero : Js.parseInt "-0" = Some 0.
Proof. reflexivity. Qed.

Example parseInt_prefix : Js.parseInt "  -12px" = Some (-12).
Proof. reflexivity. Qed.

Example parseInt_hex : Js.parseInt "0x1F" = Some 31.
Proof. reflexivity. Qed.

Example parseInt_words : Js.parseInt "soon" = None.
Proof. reflexivity. Qed.

Example headers_get_any_case :
  Js.headers_get [("x-ratelimit-remaining", "0")] "X-RateLimit-Remaining" = Some "0".
Proof. reflexivity. Qed.

Example headers_get_absent :
  Js.headers_get [("Content-Type", "text/html")] "X-RateLimit-Reset" = None.
Proof. reflexivity. Qed.

Example uuid_accepts : Sample.uuid Sample.mbid = true.
Proof. reflexivity. Qed.

Example uuid_rejects_version : Sample.uuid "94ed318a-fd7d-6abc-8491-a35e39f51dca" = false.
Proof. reflexivity. Qed.

Example toString_escapes :
  Js.toString [("query", "a b&c"); ("inc", "artists+releases")] =
  "query=a+b%26c&inc=artists%2Breleases".
Proof. reflexivity. Qed.

Example parse_reads_back :
  Js.parse "query=a+b%26c&&inc=artists%2Breleases" =
  [("query", "a b&c"); ("inc", "artists+releases")].
Proof. reflexivity. Qed.

(** The first of the two assignments in [get] writes the value
    [undefined] out; the second one replaces it. *)
Example first_assignment_unfiltered :
  Js.query (Js.set_search Sample.here
              (Js.toString (URLSearchParams [("offset", QUndefined)])))
    = Some "offset=undefined" /\
  Js.query (with_query Sample.here (Some [("offset", QUndefined)])) = None.
Proof. split; reflexivity. Qed.

(** The lookup of the sample recording with no includes sends
    [GET recording/<mbid>?inc=] at once and returns the payload as it
    was decoded. *)
Example lookup_recording :
  lookup (Sample.serve Sample.found) Recording Sample.mbid None Sample.start =
  (Returned
     (Fulfilled (Js.JObject [("id", Js.JString Sample.mbid);
                             ("title", Js.JString "LAST ANGEL")])),
   mkState (this Sample.start)
           (Js.mkRuntime 25 1 [("X-RateLimit-Remaining", Js.LNull)])
           [Sample.lookup_sent]).
Proof. reflexivity. Qed.

(** The first state of a client satisfies the allocation invariant. *)
Lemma allocated_boot (options : ClientOptions) (t0 : Z) : allocated (boot options t0).
Proof. unfold allocated, boot. cbn. lia. Qed.

(** A request answered by [Sample.throttled] 25 ms after the start leaves a
    new gate that settles at time 1000. *)
Lemma gate_replaced_at_sample :
  allocated Sample.start /\
  network (Sample.serve Sample.throttled) (wire Sample.start)
          (mkSent (send_time Sample.start) Sample.here Sample.plain)
    = (Responded Sample.throttled, 25%N) /\
  throttles Sample.throttled 25 1 /\
  rateLimitDelay
    (this (snd (request (Sample.serve Sample.throttled) Sample.here Sample.plain
                        Sample.start)))
    = Js.mkPromise 1 (Some 1000).
Proof.
  assert (allocated Sample.start) as H1
    by (unfold allocated; cbn; repeat constructor).
  assert (network (Sample.serve Sample.throttled) (wire Sample.start)
            (mkSent (send_time Sample.start) Sample.here Sample.plain)
          = (Responded Sample.throttled, 25%N)) as H2 by reflexivity.
  assert (throttles Sample.throttled 25 1) as H3
    by (exists "0", "1"; repeat split).
  split; [exact H1|]. split; [exact H2|]. split; [exact H3|].
  exact (proj1 (proj2 (proj2
           (gate_replaced_iff_throttled (Sample.serve Sample.throttled)
              Sample.here Sample.plain Sample.start Sample.throttled 25%N
              H1 H2))) 1 H3).
Defined.

(** A request entering 400 ms into the cooldown of [Sample.throttled]
    waits for the 600 ms that are left. *)
Lemma rest_of_cooldown_at_sample :
  throttles Sample.throttled (Js.clock (rt Sample.start)) 1 /\
  1 * 1000 - Js.clock (rt Sample.start) <= timer_max /\
  suspension (Sample.serve Sample.found) Sample.here Sample.plain
             (elapse 400 (snd (inspect Sample.throttled Sample.start)))
    = Some 600.
Proof.
  assert (throttles Sample.throttled (Js.clock (rt Sample.start)) 1) as H
    by (exists "0", "1"; repeat split).
  assert (1 * 1000 - Js.clock (rt Sample.start) <= timer_max) as Hb
    by (repeat split; vm_compute; try reflexivity; discriminate).
  split; [exact H|]. split; [exact Hb|].
  exact (proj1 (request_waits_for_rest_of_cooldown
                  (Sample.serve Sample.found) Sample.throttled Sample.start 1
                  400%N Sample.here Sample.plain H Hb)).
Defined.

(** Answered with status 404 and an error payload, [get], [post] and
    [lookup] all fail with that message and that status. *)
Lemma not_found_at_sample :
  let env := Sample.serve Sample.not_found in
  let s := Sample.start in
  let data := Js.JObject [("error", Js.JString "Not Found");
                          ("help", Js.JString "See the documentation")] in
  let failure := Rejected (ApiError (Some (Js.JString "Not Found")) 404) in
  let there := Js.mkURL "https" "musicbrainz.org"
                        ("/ws/2/recording/" ++ Sample.mbid) None None in
  (json Sample.not_found = inr data /\
   isError env data = true /\
   Js.prop data "error" = Some (Js.JString "Not Found")) /\
  (new_URL env "artist" (apiBaseUrl (this s)) = inr Sample.here /\
   answers env s (with_query Sample.here None)
           (mkInit "GET" (headers (this s)) None) Sample.not_found /\
   fst (get env "artist" None s) = failure) /\
  (answers env s Sample.here
           (mkInit "POST" (headers (this s)) (Some (stringify env Js.JNull)))
           Sample.not_found /\
   fst (post env "artist" Js.JNull s) = failure) /\
  (validate env Sample.mbid = true /\
   new_URL env (Js.join "/" [entity_name Recording; Sample.mbid])
           (apiBaseUrl (this s)) = inr there /\
   answers env s (with_query there (Some (inc_query None)))
           (mkInit "GET" (headers (this s)) None) Sample.not_found /\
   fst (lookup env Recording Sample.mbid None s) = Returned failure).
Proof.
  intros env s data failure there.
  assert (json Sample.not_found = inr data) as H2 by reflexivity.
  assert (isError env data = true) as H3 by reflexivity.
  assert (Js.prop data "error" = Some (Js.JString "Not Found")) as H4
    by reflexivity.
  destruct (error_envelope_becomes_ApiError env s Sample.not_found data
              "Not Found" H2 H3 H4) as (Hget & Hpost & Hlookup).
  split; [repeat split; assumption|]. split; [|split].
  - split; [reflexivity|]. split; [reflexivity|].
    exact (Hget "artist" None Sample.here eq_refl eq_refl).
  - split; [reflexivity|].
    exact (Hpost "artist" Js.JNull Sample.here eq_refl eq_refl).
  - split; [reflexivity|]. split; [reflexivity|]. split; [reflexivity|].
    exact (Hlookup Recording Sample.mbid None there eq_refl eq_refl eq_refl).
Defined.

(** A status of 404 with a body that is no error payload is a success,
    for [get] and for [post]. *)
Lemma gone_at_sample :
  let env := Sample.serve Sample.gone in
  let s := Sample.start in
  let data := Js.JObject [("message", Js.JString "nothing here")] in
  (json Sample.gone = inr data /\ isError env data = false) /\
  (new_URL env "artist" (apiBaseUrl (this s)) = inr Sample.here /\
   answers env s (with_query Sample.here (Some Sample.search_query))
           (mkInit "GET" (headers (this s)) None) Sample.gone /\
   fst (get env "artist" (Some Sample.search_query) s) = Fulfilled data) /\
  (answers env s Sample.here
           (mkInit "POST" (headers (this s)) (Some (stringify env Js.JNull)))
           Sample.gone /\
   fst (post env "artist" Js.JNull s) = Fulfilled data).
Proof.
  intros env s data.
  assert (json Sample.gone = inr data) as H2 by reflexivity.
  assert (isError env data = false) as H3 by reflexivity.
  destruct (status_alone_never_fails env s Sample.gone data H2)
    as (Hget & Hpost & _).
  split; [split; assumption|]. split.
  - split; [reflexivity|]. split; [reflexivity|].
    exact (proj1 (Hget "artist" (Some Sample.search_query) Sample.here
                    eq_refl eq_refl) H3).
  - split; [reflexivity|].
    exact (proj1 (Hpost "artist" Js.JNull Sample.here eq_refl eq_refl) H3).
Defined.

(** [lookup] with the identifier [x] throws and leaves the state alone. *)
Lemma malformed_at_sample :
  validate (Sample.serve Sample.found) "x" = false /\
  lookup (Sample.serve Sample.found) Artist "x" None Sample.start =
    (Threw (AssertionError "x is not a valid MBID"), Sample.start).
Proof.
  assert (validate (Sample.serve Sample.found) "x" = false) as H
    by reflexivity.
  split; [exact H|].
  exact (lookup_rejects_malformed_mbid (Sample.serve Sample.found) Artist "x"
           None Sample.start H).
Defined.

(** A second cooldown, asked for by the response to a call that had to
    wait for a first one lasting until time 1000, makes the gate settle at
    time 3000. *)
Lemma overwrite_at_sample :
  let env := Sample.serve Sample.throttled_again in
  let os := [Arrive Sample.throttled; Wait 200] in
  let o := Called (ViaGet "artist" None) in
  Js.settles (rateLimitDelay (this (run env os Sample.start))) = Some 1000 /\
  brings env (run env os Sample.start) o = Some (Sample.throttled_again, 1025) /\
  cooldown Sample.throttled_again 1025 = Some 1975 /\
  Js.settles (rateLimitDelay (this (run env (os ++ [o]) Sample.start)))
    = Some 3000.
Proof.
  intros env os o.
  assert (brings env (run env os Sample.start) o =
          Some (Sample.throttled_again, 1025)) as H1 by reflexivity.
  assert (cooldown Sample.throttled_again 1025 = Some 1975) as H2
    by reflexivity.
  split; [reflexivity|]. split; [exact H1|]. split; [exact H2|].
  exact (proj2 (proj2 (gate_holds_one_cooldown env)) os Sample.start o
           Sample.throttled_again 1025 1975 H1 H2).
Defined.

(** [lookup] of the sample recording is [get] of its path with [inc]. *)
Lemma delegation_at_sample :
  let env := Sample.serve Sample.found in
  validate env Sample.mbid = true /\
  lookup env Recording Sample.mbid (Some ["artists"; "releases"]) Sample.start =
    (let '(p, s') :=
       get env ("recording/" ++ Sample.mbid)
           (Some [("inc", QString "artists+releases")]) Sample.start in
     (Returned p, s')).
Proof.
  intros env.
  assert (validate env Sample.mbid = true) as H by reflexivity.
  split; [exact H|].
  exact (proj1 (lookup_delegates_to_get env Recording Sample.mbid
                  (Some ["artists"; "releases"]) Sample.start H)).
Defined.

(** The [offset] key, whose value is [undefined], is not in the query of
    the request; the two other keys are. *)
Lemma left_out_at_sample :
  let env := Sample.serve Sample.found in
  NoDup (map fst Sample.search_query) /\
  wire (snd (get env "artist" (Some Sample.search_query) Sample.start)) =
    (wire Sample.start ++ [Sample.search_sent])%list /\
  Js.searchParams (sent_url Sample.search_sent) =
    [("query", "a b&c"); ("limit", "5")].
Proof.
  intros env.
  assert (NoDup (map fst Sample.search_query)) as H1.
  { repeat (constructor;
            [cbn; intros H; repeat (destruct H as [H|H]; [discriminate H|]);
             exact H|]).
    constructor. }
  assert (wire (snd (get env "artist" (Some Sample.search_query) Sample.start)) =
          (wire Sample.start ++ [Sample.search_sent])%list) as H2
    by reflexivity.
  split; [exact H1|]. split; [exact H2|].
  exact (proj1 (proj2 (undefined_values_are_left_out env "artist"
                         Sample.search_query Sample.start Sample.search_sent
                         H1 H2))).
Defined.

(* ===================================================================== *)
(** ** Further properties of the calls                                    *)
(* ===================================================================== *)

Section Calls.

Variable env : Env.

(** What a call adds to the wire: the request it prepared, if any. *)
Lemma wire_invoke (e : EntryPoint) (s : State) :
  wire (snd (invoke env e s)) =
  (wire s ++ match sent_by env e s with Some sent => [sent] | None => [] end)%list.
Proof.
  rewrite invoke_unfold. unfold sent_by.
  destruct (plan env e (this s)) as [outcome|u init].
  - cbn [snd]. rewrite app_nil_r. reflexivity.
  - pose proof (wire_request env u init s) as Hw.
    destruct (request env u init s) as [[r|x] s']; exact Hw.
Qed.

Lemma sent_by_wire (e : EntryPoint) (s : State) (sent : Sent) :
  wire (snd (invoke env e s)) = (wire s ++ [sent])%list <->
  sent_by env e s = Some sent.
Proof.
  rewrite wire_invoke. split.
  - destruct (sent_by env e s) as [x|]; intros H.
    + apply app_inv_head in H. congruence.
    + rewrite app_nil_r in H. exfalso. exact (not_own_tail _ _ H).
  - intros ->. reflexivity.
Qed.

(** The state after a call that sent a request, by what the network did. *)
Lemma invoke_sent (e : EntryPoint) (s : State) (u : Js.URL) (init : RequestInit) :
  plan env e (this s) = Sends u init ->
  invoke env e s =
  match network env (wire s) (mkSent (send_time s) u init) with
  | (Failed x, ms) => (Returned (Rejected x), at_arrival u init ms s)
  | (Responded r, ms) =>
      (Returned (fst (decode env r (snd (inspect r (at_arrival u init ms s))))),
       snd (inspect r (at_arrival u init ms s)))
  end.
Proof.
  intros Hplan. rewrite invoke_unfold, Hplan, request_unfold. cbv zeta.
  destruct (network env (wire s) _) as [[x|r] ms]; reflexivity.
Qed.

(** X1. The first request of a newly constructed client is not delayed:
    whatever the options, the time of construction and the time that has
    passed since, a call that sends a request sends it at the time of the
    call. *)
Theorem first_request_is_not_delayed
    (options : ClientOptions) (t0 : Z) (ms : N) (e : EntryPoint) (sent : Sent) :
  let s := elapse ms (boot options t0) in
  wire (snd (invoke env e s)) = (wire s ++ [sent])%list ->
  sent_at sent = Js.clock (rt s) /\ sent_at sent = t0 + Z.of_N ms.
Proof.
  intros s Hwire. apply sent_by_wire in Hwire. unfold sent_by in Hwire.
  destruct (plan env e (this s)) as [outcome|u init]; [discriminate|].
  injection Hwire as <-. split; reflexivity.
Qed.

(** X3. A call puts at most one request on the wire, whatever its outcome
    (there is no retry), it adds it after the requests that were there, and
    it sends it at the time the gate allows, not before the call. *)
Theorem call_sends_at_most_once (e : EntryPoint) (s : State) :
  exists l,
    wire (snd (invoke env e s)) = (wire s ++ l)%list /\
    (List.length l <= 1)%nat /\
    Forall (fun sent => sent_at sent = send_time s /\
                        Js.clock (rt s) <= sent_at sent) l.
Proof.
  exists (match sent_by env e s with Some sent => [sent] | None => [] end).
  split; [apply wire_invoke|].
  unfold sent_by. destruct (plan env e (this s)) as [outcome|u init].
  - split; [cbn; lia|constructor].
  - split; [cbn; lia|]. constructor; [|constructor]. cbn [sent_at].
    split; [reflexivity|]. unfold send_time, Js.resumes.
    destruct (Js.settles (rateLimitDelay (this s))); lia.
Qed.

(** X4. A call that sends nothing has no effect at all: the state after it
    (client, clock, console, wire) is the state before. This is how a
    malformed identifier and a URL that does not resolve end. *)
Theorem call_without_request_changes_nothing (e : EntryPoint) (s : State) :
  wire (snd (invoke env e s)) = wire s -> snd (invoke env e s) = s.
Proof.
  intros Hwire. rewrite wire_invoke in Hwire. unfold sent_by in Hwire.
  rewrite invoke_unfold.
  destruct (plan env e (this s)) as [outcome|u init]; [reflexivity|].
  exfalso. exact (not_own_tail _ _ (eq_sym Hwire)).
Qed.

(** X5. When the network fails the request of a call with [x], the call
    fails with [x] itself, and the client object is left as it was: no
    cooldown is set and nothing is logged. *)
Theorem transport_failure_propagates
    (e : EntryPoint) (s : State) (sent : Sent) (x : Exn) :
  wire (snd (invoke env e s)) = (wire s ++ [sent])%list ->
  fst (network env (wire s) sent) = Failed x ->
  fst (invoke env e s) = Returned (Rejected x) /\
  this (snd (invoke env e s)) = this s /\
  Js.console (rt (snd (invoke env e s))) = Js.console (rt s).
Proof.
  intros Hwire Hnet. apply sent_by_wire in Hwire. unfold sent_by in Hwire.
  destruct (plan env e (this s)) as [outcome|u init] eqn:Hplan; [discriminate|].
  injection Hwire as <-. rewrite (invoke_sent e s u init Hplan).
  destruct (network env (wire s) _) as [[y|r] ms]; cbn [fst] in Hnet;
    [|discriminate].
  injection Hnet as ->. repeat split; reflexivity.
Qed.

(** X6. When the body of the response is not JSON, what [response.json()]
    fails with is what the call fails with, for every entry point. *)
Theorem decode_failure_propagates
    (e : EntryPoint) (s : State) (sent : Sent) (r : Response) (x : Exn) :
  exchanged env s (snd (invoke env e s)) sent r ->
  json r = inl x ->
  fst (invoke env e s) = Returned (Rejected x).
Proof.
  intros Hex Hjson.
  destruct (exchanged_inv env e s sent r Hex) as (u & init & ms & _ & _ & _ & ->).
  cbn [fst]. rewrite decode_unfold. cbn [fst]. rewrite Hjson. reflexivity.
Qed.

(** X7. The cooldown does not depend on how the call ends: when the
    response asks for one at its time of arrival, of a length that the
    timer can wait for (at most [2^31 - 1] ms), the gate after the call
    settles at the reset time, whatever the status and the body of the
    response are, so also when the call fails because the body is an error
    payload or is not JSON. *)
Theorem failed_call_still_sets_cooldown
    (e : EntryPoint) (s : State) (sent : Sent) (r : Response) (T : Z) :
  let s' := snd (invoke env e s) in
  exchanged env s s' sent r ->
  throttles r (Js.clock (rt s')) T ->
  T * 1000 - Js.clock (rt s') <= timer_max ->
  Js.settles (rateLimitDelay (this s')) = Some (T * 1000) /\
  Js.pid (rateLimitDelay (this s')) = Js.next_pid (rt s).
Proof.
  intros s' Hex Hthr _. subst s'.
  destruct (exchanged_inv env e s sent r Hex)
    as (u & init & ms & Hplan & -> & Hnet & Hinv).
  rewrite Hinv in *. cbn [snd] in *.
  rewrite clock_inspect in Hthr.
  rewrite (gate_after_cooldown r _ _ (throttles_cooldown r _ T Hthr)).
  cbn [Js.settles Js.pid]. split; [f_equal; lia|reflexivity].
Qed.

(** Before it sends, a call can only stop with a failure. *)
Lemma plan_stops_failed (e : EntryPoint) (c : Client) (outcome : Call Js.Json) :
  plan env e c = Stops outcome ->
  exists x, outcome = Threw x \/ outcome = Returned (Rejected x).
Proof.
  assert (forall endpoint query,
            plan_get env endpoint query c = Stops outcome ->
            exists x, outcome = Threw x \/ outcome = Returned (Rejected x)) as Hget.
  { intros endpoint query. unfold plan_get.
    destruct (new_URL env endpoint (apiBaseUrl c)) as [x|u]; [|discriminate].
    intros [= <-]. eauto. }
  destruct e as [entityType mbid inc|endpoint query|endpoint data]; cbn [plan].
  - destruct (validate env mbid); [apply Hget|]. intros [= <-]. eauto.
  - apply Hget.
  - destruct (new_URL env endpoint (apiBaseUrl c)) as [x|u]; [|discriminate].
    intros [= <-]. eauto.
Qed.

Lemma fulfilled_inv (e : EntryPoint) (s : State) (data : Js.Json) :
  fst (invoke env e s) = Returned (Fulfilled data) ->
  exists sent r,
    exchanged env s (snd (invoke env e s)) sent r /\
    json r = inr data /\ isError env data = false.
Proof.
  destruct (plan env e (this s)) as [outcome|u init] eqn:Hplan.
  - rewrite invoke_unfold, Hplan. cbn [fst]. intros ->.
    destruct (plan_stops_failed e _ _ Hplan) as (x & [H|H]); discriminate H.
  - rewrite (invoke_sent e s u init Hplan).
    destruct (network env (wire s) _) as [[x|r] ms] eqn:Hnet; cbn [fst snd];
      [discriminate|].
    rewrite decode_unfold. cbn [fst].
    destruct (json r) as [x|d] eqn:Hjson; [discriminate|].
    destruct (isError env d) eqn:Herr; [discriminate|].
    intros [= ->]. exists (mkSent (send_time s) u init), r.
    split; [|split; [exact Hjson|exact Herr]].
    split; [rewrite wire_inspect; reflexivity|].
    rewrite Hnet. reflexivity.
Qed.

(** X8. A call succeeds only with the decoded body of a response: it
    returns [data] exactly when it has exchanged a request for a response
    whose body decoded to [data] and of which [isError] does not hold.
    There is no fallback value. *)
Theorem success_is_a_decoded_payload
    (e : EntryPoint) (s : State) (data : Js.Json) :
  fst (invoke env e s) = Returned (Fulfilled data) <->
  exists sent r,
    exchanged env s (snd (invoke env e s)) sent r /\
    json r = inr data /\ isError env data = false.
Proof.
  split; [apply fulfilled_inv|].
  intros (sent & r & Hex & Hjson & Herr).
  destruct (exchanged_inv env e s sent r Hex) as (u & init & ms & _ & _ & _ & ->).
  cbn [fst]. rewrite decode_unfold. cbn [fst]. rewrite Hjson, Herr.
  reflexivity.
Qed.

(** X9. Calls in sequence share the gate: when the response to one call
    asks for a cooldown until second [T], of a length that the timer can
    wait for (at most [2^31 - 1] ms), the request of the next call on
    the same client, made [ms] milliseconds after the first call ended, is
    sent at the later of the time of that call and [T * 1000], never
    before. *)
Theorem next_call_waits_for_reset
    (e1 e2 : EntryPoint) (s : State) (sent1 sent2 : Sent) (r : Response)
    (T : Z) (ms : N) :
  let s1 := snd (invoke env e1 s) in
  let s2 := elapse ms s1 in
  exchanged env s s1 sent1 r ->
  throttles r (Js.clock (rt s1)) T ->
  T * 1000 - Js.clock (rt s1) <= timer_max ->
  wire (snd (invoke env e2 s2)) = (wire s2 ++ [sent2])%list ->
  sent_at sent2 = Z.max (Js.clock (rt s2)) (T * 1000) /\
  T * 1000 <= sent_at sent2.
Proof.
  intros s1 s2 Hex Hthr _ Hwire.
  assert (Js.settles (rateLimitDelay (this s1)) = Some (T * 1000)) as Hgate.
  { subst s1.
    destruct (exchanged_inv env e1 s sent1 r Hex)
      as (u & init & ms1 & _ & _ & _ & Hinv).
    rewrite Hinv in *. cbn [snd] in *. rewrite clock_inspect in Hthr.
    rewrite (gate_after_cooldown r _ _ (throttles_cooldown r _ T Hthr)).
    cbn [Js.settles]. f_equal. lia. }
  apply sent_by_wire in Hwire. unfold sent_by in Hwire.
  destruct (plan env e2 (this s2)) as [outcome|u init]; [discriminate|].
  injection Hwire as <-. cbn [sent_at].
  unfold send_time, Js.resumes. change (this s2) with (this s1).
  rewrite Hgate. split; [reflexivity|lia].
Qed.

(** X19. An endpoint that does not resolve against the base URL makes the
    call fail with what the [URL] constructor throws, as a rejected promise
    (also for [lookup], whose malformed identifier is thrown instead), and
    the state is left as it was: nothing is sent. *)
Theorem unresolved_url_rejects_without_request
    (e : EntryPoint) (s : State) (x : Exn) :
  passes_validation env e = true ->
  new_URL env (endpoint_of e) (apiBaseUrl (this s)) = inl x ->
  invoke env e s = (Returned (Rejected x), s).
Proof.
  intros Hv Hurl. rewrite invoke_unfold.
  destruct e as [entityType mbid inc|endpoint query|endpoint data];
    cbn [plan passes_validation endpoint_of] in *; unfold plan_get;
    rewrite ?Hv, Hurl; reflexivity.
Qed.

(** X20. Every response is written to the console: a call that exchanged
    a request for a response adds the line [X-RateLimit-Remaining] with the
    value of the header ([null] when it is absent) and, exactly when the
    response sets a cooldown, the line [Cool down] with its length in
    milliseconds; a call that sent nothing, or whose request failed, adds
    no line. *)
Theorem responses_are_logged (e : EntryPoint) (s : State) :
  let s' := snd (invoke env e s) in
  (forall sent r,
     exchanged env s s' sent r ->
     Js.console (rt s') = (Js.console (rt s) ++ logged r (Js.clock (rt s')))%list) /\
  ((forall sent r, ~ exchanged env s s' sent r) ->
   Js.console (rt s') = Js.console (rt s)).
Proof.
  cbv zeta. split.
  - intros sent r Hex.
    destruct (exchanged_inv env e s sent r Hex) as (u & init & ms & _ & _ & _ & ->).
    cbn [snd]. rewrite clock_inspect, inspect_cooldown. cbn [snd]. unfold logged.
    destruct (cooldown r _); cbn [rt Js.console at_arrival];
      rewrite <- ?app_assoc; reflexivity.
  - intros Hnone.
    destruct (plan env e (this s)) as [outcome|u init] eqn:Hplan.
    + rewrite invoke_unfold, Hplan. reflexivity.
    + destruct (network env (wire s) (mkSent (send_time s) u init))
        as [[x|r] ms] eqn:Hnet.
      * rewrite (invoke_sent e s u init Hplan), Hnet. reflexivity.
      * exfalso. apply (Hnone (mkSent (send_time s) u init) r).
        rewrite (invoke_sent e s u init Hplan), Hnet. cbn [snd].
        split; [rewrite wire_inspect; reflexivity|].
        rewrite Hnet. reflexivity.
Qed.

End Calls.

(* ===================================================================== *)
(** ** Further properties of the requests                                 *)
(* ===================================================================== *)

Section Requests.

Variable env : Env.

Lemma planned_is_well_formed (e : EntryPoint) (c : Client) (u : Js.URL)
    (init : RequestInit) :
  plan env e c = Sends u init ->
  init_headers init = headers c /\
  ((method init = "GET" /\ body init = None) \/
   (method init = "POST" /\ body init <> None)).
Proof.
  assert (forall endpoint query,
            plan_get env endpoint query c = Sends u init ->
            init_headers init = headers c /\
            ((method init = "GET" /\ body init = None) \/
             (method init = "POST" /\ body init <> None))) as Hget.
  { intros endpoint query. unfold plan_get.
    destruct (new_URL env endpoint (apiBaseUrl c)) as [x|u0]; [discriminate|].
    intros [= <- <-]. split; [reflexivity|]. left. split; reflexivity. }
  destruct e as [entityType mbid inc|endpoint query|endpoint data]; cbn [plan].
  - destruct (validate env mbid); [apply Hget|discriminate].
  - apply Hget.
  - destruct (new_URL env endpoint (apiBaseUrl c)) as [x|u0]; [discriminate|].
    intros [= <- <-]. split; [reflexivity|]. right.
    split; [reflexivity|discriminate].
Qed.

(** Every occurrence keeps the base URL and the headers of the client. *)
Lemma step_keeps_fields (s : State) (o : Occurrence) :
  apiBaseUrl (this (step env s o)) = apiBaseUrl (this s) /\
  headers (this (step env s o)) = headers (this s).
Proof.
  destruct (brings env s o) as [[r now]|] eqn:E.
  - destruct (step_brings env s o r now E) as (a & -> & Hthis & _).
    rewrite this_inspect, Hthis. split; reflexivity.
  - rewrite (step_brings_nothing env s o E). split; reflexivity.
Qed.

Lemma wire_step (s : State) (o : Occurrence) :
  wire (step env s o) =
  (wire s ++ match o with
             | Called e =>
                 match sent_by env e s with Some sent => [sent] | None => [] end
             | _ => []
             end)%list.
Proof.
  destruct o as [e|r|ms]; cbn [step].
  - apply wire_invoke.
  - rewrite wire_inspect, app_nil_r. reflexivity.
  - cbn [elapse wire]. rewrite app_nil_r. reflexivity.
Qed.

(** X2. What the constructor sets stays for the life of the client: along
    any schedule of calls, arriving responses and waits after
    [new MusicBrainzClient(options)], the base URL is the one of the options
    (the MusicBrainz one when none was given), the headers are the single
    [Accept: application/json], and every request that was put on the wire
    carries exactly that header and is a [GET] without a body or a
    [POST]. *)
Theorem constructed_client_is_stable
    (options : ClientOptions) (t0 : Z) (os : list Occurrence) :
  let s := run env os (boot options t0) in
  apiBaseUrl (this s) =
    match apiUrl options with Some u => u | None => default_apiUrl end /\
  headers (this s) = [("Accept", "application/json")] /\
  Forall well_formed (wire s).
Proof.
  cbv zeta.
  assert (forall os s,
            headers (this s) = [("Accept", "application/json")] ->
            Forall well_formed (wire s) ->
            apiBaseUrl (this (run env os s)) = apiBaseUrl (this s) /\
            headers (this (run env os s)) = [("Accept", "application/json")] /\
            Forall well_formed (wire (run env os s))) as Hinv.
  { clear os. induction os as [|o os IH]; intros s Hh Hw.
    - repeat split; assumption.
    - change (run env (o :: os) s) with (run env os (step env s o)).
      destruct (step_keeps_fields s o) as [Hb Hh'].
      rewrite <- Hb. apply IH; [congruence|].
      rewrite wire_step. apply Forall_app. split; [exact Hw|].
      destruct o as [e|r|ms]; try constructor.
      unfold sent_by. destruct (plan env e (this s)) as [outcome|u init] eqn:Hplan;
        constructor; [|constructor].
      destruct (planned_is_well_formed e _ u init Hplan) as [H1 H2].
      unfold well_formed. cbn [sent_init]. rewrite H1, Hh. split; [reflexivity|].
      destruct H2 as [H2|[H2 _]]; [left|right]; exact H2. }
  destruct (Hinv os (boot options t0)) as (H1 & H2 & H3);
    [reflexivity|constructor|].
  rewrite H1. repeat split; assumption.
Qed.

(** X10. [post], and [get] called without a query mapping, send the URL
    that the endpoint resolved to against the base URL as it is, with the
    query the endpoint itself may carry. The request of [post] has the
    method [POST], the headers of the client and [JSON.stringify] of the
    data as its body; that of [get] has the method [GET], the same headers
    and no body. *)
Theorem resolved_url_is_sent_as_it_is
    (endpoint : string) (s : State) (sent : Sent) :
  (forall data,
     wire (snd (post env endpoint data s)) = (wire s ++ [sent])%list ->
     new_URL env endpoint (apiBaseUrl (this s)) = inr (sent_url sent) /\
     sent_init sent = mkInit "POST" (headers (this s)) (Some (stringify env data))) /\
  (wire (snd (get env endpoint None s)) = (wire s ++ [sent])%list ->
   new_URL env endpoint (apiBaseUrl (this s)) = inr (sent_url sent) /\
   sent_init sent = mkInit "GET" (headers (this s)) None).
Proof.
  split.
  - intros data Hwire.
    assert (snd (invoke env (ViaPost endpoint data) s) =
            snd (post env endpoint data s)) as E
      by (cbn [invoke]; destruct (post env endpoint data s); reflexivity).
    rewrite <- E in Hwire. apply sent_by_wire in Hwire.
    unfold sent_by in Hwire. cbn [plan] in Hwire.
    destruct (new_URL env endpoint (apiBaseUrl (this s))) as [x|u];
      [discriminate|].
    injection Hwire as <-. split; reflexivity.
  - intros Hwire. apply get_sent in Hwire as (u & Hu & ->).
    split; [exact Hu|reflexivity].
Qed.

(** X11. [get] called with a query mapping replaces the query of the
    resolved URL and nothing else: scheme, authority, path and fragment are
    those the endpoint resolved to, and the query that the endpoint may have
    carried is gone. With a mapping that has no defined value (the empty
    one too) the URL that is sent has no query at all. *)
Theorem query_mapping_replaces_query
    (endpoint : string) (q : Query) (s : State) (sent : Sent) :
  wire (snd (get env endpoint (Some q) s)) = (wire s ++ [sent])%list ->
  exists u,
    new_URL env endpoint (apiBaseUrl (this s)) = inr u /\
    Js.scheme (sent_url sent) = Js.scheme u /\
    Js.authority (sent_url sent) = Js.authority u /\
    Js.path (sent_url sent) = Js.path u /\
    Js.fragment (sent_url sent) = Js.fragment u /\
    Js.searchParams (sent_url sent) =
      URLSearchParams (filter (fun kv => defined (snd kv)) q) /\
    (forallb (fun kv => negb (defined (snd kv))) q = true ->
     Js.query (sent_url sent) = None /\ Js.search (sent_url sent) = EmptyString).
Proof.
  intros Hwire. apply get_sent in Hwire as (u & Hu & ->). exists u.
  split; [exact Hu|]. cbn [sent_url].
  rewrite with_query_assign. unfold assign_defined.
  rewrite searchParams_set_search, set_search_toString.
  cbn [Js.scheme Js.authority Js.path Js.fragment Js.query].
  repeat (split; [reflexivity|]).
  intros Hnone.
  assert (filter (fun kv => defined (snd kv)) q = []) as ->.
  { clear -Hnone. induction q as [|[k v] q IH]; [reflexivity|].
    cbn [forallb filter snd] in *. apply andb_true_iff in Hnone as [Hv Hq].
    apply negb_true_iff in Hv. rewrite Hv. exact (IH Hq). }
  split; reflexivity.
Qed.

End Requests.

(* ===================================================================== *)
(** ** Further properties of [lookup]                                     *)
(* ===================================================================== *)

Section Lookup.

Variable env : Env.

Lemma cut_at_first (sep : ascii) (a b : string) :
  all (differs sep) a = true -> Js.cut_at sep (a ++ String sep b) = (a, b).
Proof.
  induction a as [|c a IH]; cbn [all]; intros H.
  - cbn. rewrite Ascii.eqb_refl. reflexivity.
  - apply andb_true_iff in H as [Hc Ha]. unfold differs in Hc.
    apply negb_true_iff in Hc.
    change (String c a ++ String sep b) with (String c (a ++ String sep b)).
    cbn [Js.cut_at]. rewrite Hc, (IH Ha). reflexivity.
Qed.

Lemma split_on_first (sep : ascii) (a rest : string) :
  all (differs sep) a = true ->
  Js.split_on sep (a ++ String sep rest) = a :: Js.split_on sep rest.
Proof.
  induction a as [|c a IH]; cbn [all]; intros H.
  - cbn. rewrite Ascii.eqb_refl. reflexivity.
  - apply andb_true_iff in H as [Hc Ha]. unfold differs in Hc.
    apply negb_true_iff in Hc.
    change (String c a ++ String sep rest) with (String c (a ++ String sep rest)).
    cbn [Js.split_on]. rewrite Hc, (IH Ha). reflexivity.
Qed.

Lemma split_on_none (sep : ascii) (a : string) :
  all (differs sep) a = true -> Js.split_on sep a = [a].
Proof.
  induction a as [|c a IH]; cbn [all]; intros H; [reflexivity|].
  apply andb_true_iff in H as [Hc Ha]. unfold differs in Hc.
  apply negb_true_iff in Hc. cbn [Js.split_on]. rewrite Hc, (IH Ha).
  reflexivity.
Qed.

(** Splitting undoes joining, for a list that is not empty and whose
    elements do not contain the separator. *)
Lemma split_on_join_any (sep : ascii) (x : string) (xs : list string) :
  Forall (fun a => all (differs sep) a = true) (x :: xs) ->
  Js.split_on sep (Js.join (String sep EmptyString) (x :: xs)) = x :: xs.
Proof.
  revert x. induction xs as [|y ys IH]; intros x H.
  - apply split_on_none. exact (Forall_inv H).
  - change (Js.join (String sep EmptyString) (x :: y :: ys))
      with (x ++ String sep (Js.join (String sep EmptyString) (y :: ys))).
    rewrite (split_on_first _ _ _ (Forall_inv H)), (IH y (Forall_inv_tail H)).
    reflexivity.
Qed.

Lemma entity_name_no_slash (k : EntityType) :
  all (differs "/") (entity_name k) = true.
Proof. destruct k; reflexivity. Qed.

Lemma entity_name_injective (k k' : EntityType) :
  entity_name k = entity_name k' -> k = k'.
Proof. destruct k, k'; intros H; try reflexivity; discriminate H. Qed.

(** X12. The endpoint of a lookup names one entity: the paths that
    [lookup] builds for two calls are the same only when the entity kinds
    are the same and the identifiers are the same, and the path cut at its
    first slash gives back the name of the kind and the identifier. *)
Theorem lookup_path_names_one_entity (k k' : EntityType) (mbid mbid' : string) :
  Js.cut_at "/" (Js.join "/" [entity_name k; mbid]) = (entity_name k, mbid) /\
  (Js.join "/" [entity_name k; mbid] = Js.join "/" [entity_name k'; mbid'] ->
   k = k' /\ mbid = mbid').
Proof.
  assert (forall k m, Js.cut_at "/" (Js.join "/" [entity_name k; m])
                      = (entity_name k, m)) as Hcut.
  { intros k0 m. change (Js.join "/" [entity_name k0; m])
      with (entity_name k0 ++ String "/" m).
    apply cut_at_first, entity_name_no_slash. }
  split; [apply Hcut|].
  intros H. apply (f_equal (Js.cut_at "/")) in H. rewrite !Hcut in H.
  injection H as Hk Hm. split; [exact (entity_name_injective _ _ Hk)|exact Hm].
Qed.

(** X13. The include list can be read back from the request of a lookup:
    for a list that is not empty and whose tokens contain no [+], the one
    parameter of the query of the URL on the wire is [inc], and its value
    split at [+] is the list of tokens, in order. *)
Theorem includes_read_back_from_request
    (entityType : EntityType) (mbid : string) (tokens : list string)
    (s : State) (sent : Sent) :
  validate env mbid = true ->
  tokens <> [] ->
  Forall (fun t => all (differs "+") t = true) tokens ->
  wire (snd (lookup env entityType mbid (Some tokens) s)) = (wire s ++ [sent])%list ->
  map (fun p => (fst p, Js.split_on "+" (snd p))) (Js.searchParams (sent_url sent))
  = [("inc", tokens)].
Proof.
  intros Hvalid Hne Hplus Hwire.
  unfold lookup in Hwire. rewrite Hvalid in Hwire.
  assert (wire (snd (get env (Js.join "/" [entity_name entityType; mbid])
                         (Some [("inc", QString (Js.join "+" tokens))]) s)) =
          (wire s ++ [sent])%list) as Hget
    by (destruct (get env _ _ s); exact Hwire).
  apply get_sent in Hget as (u & _ & ->). cbn [sent_url].
  rewrite with_query_assign. unfold assign_defined.
  change (filter (fun kv => defined (snd kv)) [("inc", QString (Js.join "+" tokens))])
    with [("inc", QString (Js.join "+" tokens))].
  rewrite searchParams_set_search. cbn [URLSearchParams map fst snd to_string].
  destruct tokens as [|t ts]; [contradiction|].
  rewrite (split_on_join_any "+" t ts Hplus). reflexivity.
Qed.

End Lookup.

(* ===================================================================== *)
(** ** Properties of the test-data generator                              *)
(* ===================================================================== *)

Section Generator.

Variable env : Env.
Variable tools : Tools.

Lemma replace_nonword_word (s : string) : all is_word (replace_nonword s) = true.
Proof.
  induction s as [|c s IH]; [reflexivity|].
  cbn [replace_nonword all]. rewrite IH.
  destruct (is_word c) eqn:E; [rewrite E|]; reflexivity.
Qed.

Lemma replace_nonword_length (s : string) :
  String.length (replace_nonword s) = String.length s.
Proof.
  induction s as [|c s IH]; [reflexivity|].
  cbn [replace_nonword String.length]. rewrite IH. reflexivity.
Qed.

Lemma replace_nonword_fixes_words (s : string) :
  all is_word s = true -> replace_nonword s = s.
Proof.
  induction s as [|c s IH]; [reflexivity|]. cbn [all replace_nonword].
  intros H. apply andb_true_iff in H as [-> Hs]. rewrite (IH Hs). reflexivity.
Qed.

(** X14. The name of the generated constant is a valid identifier whatever
    the identifier and the includes contain: [identifier] consists of word
    characters only, it is as long as the joined text it is made from, and
    a joined text of word characters is kept as it is. *)
Theorem identifier_is_made_of_word_characters
    (entityType : EntityType) (mbid : string) (includes : option (list string)) :
  let joined :=
    Js.join "_" (entity_name entityType :: mbid ::
                 match includes with Some l => l | None => [] end) in
  all is_word (identifier entityType mbid includes) = true /\
  String.length (identifier entityType mbid includes) = String.length joined /\
  (all is_word joined = true -> identifier entityType mbid includes = joined).
Proof.
  cbv zeta. unfold identifier.
  split; [apply replace_nonword_word|].
  split; [apply replace_nonword_length|apply replace_nonword_fixes_words].
Qed.

(** X15. [fetchTestdata] gives text only for a lookup that succeeded: when
    it returns [code], the identifier was valid, a request was exchanged
    for a response whose body decoded to a payload that is no error
    payload, and [code] is the template filled with that payload. With an
    identifier that [validate] rejects it fails with the assertion error
    as a rejection, and nothing is sent. *)
Theorem testdata_comes_from_a_successful_lookup
    (entityType : EntityType) (mbid : string) (includes : option (list string))
    (s : State) :
  (forall code,
     fst (fetchTestdata env tools entityType mbid includes s) = Fulfilled code ->
     validate env mbid = true /\
     exists sent r result,
       exchanged env s (snd (fetchTestdata env tools entityType mbid includes s))
                 sent r /\
       json r = inr result /\ isError env result = false /\
       code = testdata tools entityType mbid includes result) /\
  (validate env mbid = false ->
   fetchTestdata env tools entityType mbid includes s =
   (Rejected (AssertionError (mbid ++ " is not a valid MBID")), s)).
Proof.
  split.
  - intros code. unfold fetchTestdata.
    pose proof (fulfilled_inv env (ViaLookup entityType mbid includes) s)
      as Hok.
    cbn [invoke] in Hok.
    destruct (lookup env entityType mbid includes s) as [[x|[result|x]] s'] eqn:E;
      cbn [fst snd] in *; try discriminate.
    intros [= <-].
    destruct (Hok result eq_refl) as (sent & r & Hex & Hjson & Herr).
    split.
    + destruct (validate env mbid) eqn:Hv; [reflexivity|].
      unfold lookup in E. rewrite Hv in E. discriminate E.
    + exists sent, r, result. repeat split; assumption || apply Hex.
  - intros Hv. unfold fetchTestdata, lookup. rewrite Hv. reflexivity.
Qed.

Lemma join_quoted_starts (l : list string) :
  l = [] \/ exists t, Js.join " | " (map quoted l) = String dquote t.
Proof.
  destruct l as [|a [|b l]]; [left; reflexivity| |]; right; cbn [map Js.join];
    unfold quoted at 1; cbn [append]; eauto.
Qed.

(** X16. The includes in the generated type are [never] exactly when the
    include list was left out; an empty list gives an empty type argument,
    not [never]. *)
Theorem includes_type_never_iff_omitted (includes : option (list string)) :
  (includes_type includes = "never" <-> includes = None) /\
  includes_type (Some []) = EmptyString.
Proof.
  split; [|reflexivity]. split.
  - destruct includes as [l|]; [|reflexivity]. cbn [includes_type].
    destruct (join_quoted_starts l) as [->|(t & ->)]; discriminate.
  - intros ->. reflexivity.
Qed.

Lemma fetchTestdata_state (entityType : EntityType) (mbid : string)
    (includes : option (list string)) (s : State) :
  snd (fetchTestdata env tools entityType mbid includes s) =
  snd (lookup env entityType mbid includes s).
Proof.
  unfold fetchTestdata.
  destruct (lookup env entityType mbid includes s) as [[x|[result|x]] s'];
    reflexivity.
Qed.

Lemma fetchTestdata_text (entityType : EntityType) (mbid : string)
    (includes : option (list string)) (s : State) (code : string) :
  fst (fetchTestdata env tools entityType mbid includes s) = Fulfilled code ->
  exists result, code = testdata tools entityType mbid includes result.
Proof.
  unfold fetchTestdata.
  destruct (lookup env entityType mbid includes s) as [[x|[result|x]] s'];
    cbn [fst]; try discriminate.
  intros [= <-]. eauto.
Qed.

Lemma fetchTestdata_wire (entityType : EntityType) (mbid : string)
    (includes : option (list string)) (s : State) :
  (List.length (wire (snd (fetchTestdata env tools entityType mbid includes s)))
   <= S (List.length (wire s)))%nat.
Proof.
  rewrite fetchTestdata_state.
  change (lookup env entityType mbid includes s)
    with (invoke env (ViaLookup entityType mbid includes) s).
  rewrite wire_invoke, length_app.
  destruct (sent_by env _ s); cbn [List.length]; lia.
Qed.

(** The loop hands one text to [output.write] for each case of a first
    part of the list, all of it when it comes to its end, and sends at most
    one request for a case. *)
Lemma write_cases_shape (cases : list TestCase) :
  forall (s : State) (w : list string),
    exists added,
      snd (snd (write_cases env tools cases s w)) = (w ++ added)%list /\
      texts_of tools (firstn (List.length added) cases) added /\
      (List.length added <= List.length cases)%nat /\
      (fst (write_cases env tools cases s w) = Fulfilled tt ->
       List.length added = List.length cases) /\
      (List.length (wire (fst (snd (write_cases env tools cases s w))))
       <= List.length (wire s) + List.length cases)%nat.
Proof.
  induction cases as [|[[k m] i] cases IH]; intros s w.
  - exists []. cbn. rewrite app_nil_r. repeat split; try lia. constructor.
  - cbn [write_cases].
    pose proof (fetchTestdata_wire k m i s) as Hwire.
    pose proof (fetchTestdata_text k m i s) as Htext.
    destruct (fetchTestdata env tools k m i s) as [[code|x] s'];
      cbn [fst snd] in *.
    + destruct (Htext code eq_refl) as (result & Hcode).
      destruct (write_output tools w code) as [[x|] ms].
      * exists [code]. cbn [fst snd List.length firstn elapse wire].
        repeat split; try lia; try discriminate.
        constructor; [|constructor]. exists result. exact Hcode.
      * destruct (IH (elapse ms s') (w ++ [code])%list)
          as (added & Hw & Ht & Hlen & Hall & Hwr).
        exists (code :: added). rewrite Hw, <- app_assoc.
        cbn [List.length firstn app elapse wire] in *.
        repeat split; try lia.
        -- constructor; [exists result; exact Hcode|exact Ht].
        -- intros H. rewrite (Hall H). reflexivity.
    + exists []. cbn [fst snd List.length firstn]. rewrite app_nil_r.
      repeat split; try lia; try discriminate. constructor.
Qed.

(** X17. The script closes its output exactly when it comes to its end.
    What it hands to [output.write] is the import line first and then one
    text per test case, in the order of the cases: for all of them when it
    succeeds, for a first part of them when a lookup or a write fails, in
    which case it stops there and the output is left open. It sends at most
    one request per test case. *)
Theorem script_closes_only_at_its_end (t0 : Z) (cases : list TestCase) :
  let outcome := fst (script env tools t0 cases) in
  let p := snd (script env tools t0 cases) in
  (closed p = true <-> outcome = Fulfilled tt) /\
  (writes p = [] \/
   exists chunks,
     writes p = testdataImports :: chunks /\
     texts_of tools (firstn (List.length chunks) cases) chunks /\
     (List.length chunks <= List.length cases)%nat /\
     (outcome = Fulfilled tt -> List.length chunks = List.length cases)) /\
  (forall s, final p = Some s ->
     (List.length (wire s) <= List.length cases)%nat).
Proof.
  cbv zeta. unfold script.
  destruct (open_output tools) as [x|].
  { cbn. repeat split; try discriminate. left. reflexivity. }
  destruct (write_output tools [] testdataImports) as [[x|] ms0].
  { cbn. repeat split; try discriminate. right. exists [].
    cbn. repeat split; try lia; try discriminate. constructor. }
  destruct (write_cases_shape cases (boot (mkOptions None) t0) [testdataImports])
    as (added & Hw & Ht & Hlen & Hall & Hwire).
  destruct (write_cases env tools cases (boot (mkOptions None) t0)
                        [testdataImports]) as [[[]|x] [s w]];
    cbn [fst snd writes closed final] in *; subst w.
  - split; [split; reflexivity|]. split.
    + right. exists added. repeat split; assumption.
    + intros s0 [= <-]. exact Hwire.
  - split; [split; discriminate|]. split.
    + right. exists added. repeat split; assumption.
    + intros s0 [= <-]. exact Hwire.
Qed.

End Generator.

(* ===================================================================== *)
(** ** Reset times in decimal notation                                    *)
(* ===================================================================== *)

Section Decimal.

Lemma read_digits_uint (d : Decimal.uint) :
  forall a, Js.read_digits 10 (NilEmpty.string_of_uint d) (Some a)
            = Some (uint_value d a).
Proof.
  induction d; intros a; [reflexivity|..];
    cbn -[Z.mul Z.add];
    match goal with
    | |- context [Js.digit_value ?c] =>
        let v := eval vm_compute in (Js.digit_value c) in
        change (Js.digit_value c) with v
    end;
    cbn [Z.ltb Z.compare Pos.compare Pos.compare_cont];
    rewrite ?Z.add_0_r; apply IHd.
Qed.

Lemma uint_value_acc (d : Decimal.uint) :
  forall p, uint_value d (Z.pos p) = Z.pos (Pos.of_uint_acc d p).
Proof.
  induction d; intros p; cbn [uint_value Pos.of_uint_acc]; try reflexivity;
    rewrite <- IHd; f_equal; lia.
Qed.

Lemma uint_value_zero (d : Decimal.uint) :
  uint_value d 0 = Z.of_N (Pos.of_uint d).
Proof.
  induction d; cbn [uint_value Pos.of_uint]; try reflexivity;
    try exact IHd; cbn [Z.mul Z.add Z.of_N]; apply uint_value_acc.
Qed.

Ltac eval_digits :=
  repeat match goal with
         | |- context [Js.digit_value ?c] =>
             let v := eval vm_compute in (Js.digit_value c) in
             change (Js.digit_value c) with v
         end;
  cbn [Z.ltb Z.compare Pos.compare Pos.compare_cont].

Ltac eval_spaces :=
  repeat match goal with
         | |- context [Js.is_space ?c] =>
             let v := eval vm_compute in (Js.is_space c) in
             change (Js.is_space c) with v
         end.

Ltac read_decimal :=
  unfold Js.parseInt; cbn [Js.trim_start]; eval_spaces;
  cbn [Js.strip_sign Js.strip_hex_prefix];
  cbn [Js.read_digits]; eval_digits;
  try (cbn [Js.read_digits]; eval_digits);
  rewrite ?read_digits_uint; cbn [uint_value Z.mul Z.add Z.opp];
  try reflexivity.

(** [parseInt] reads a numeral in decimal digits as its value, and as the
    opposite of its value after a minus sign. *)
Lemma parseInt_digits (d : Decimal.uint) :
  d <> Decimal.Nil ->
  Js.parseInt (NilEmpty.string_of_uint d) = Some (uint_value d 0) /\
  Js.parseInt (String "-" (NilEmpty.string_of_uint d)) = Some (- uint_value d 0).
Proof.
  intros Hd. destruct d as [|r|r|r|r|r|r|r|r|r|r]; [contradiction|..];
    cbn [NilEmpty.string_of_uint];
    try (split; read_decimal;
         rewrite ?Z.mul_1_l; try reflexivity;
         destruct (uint_value r _); reflexivity).
  destruct r as [|r|r|r|r|r|r|r|r|r|r]; cbn [NilEmpty.string_of_uint];
    split; read_decimal; rewrite ?Z.mul_1_l; try reflexivity;
    destruct (uint_value r _); reflexivity.
Qed.

Lemma parseInt_decimal (n : Z) :
  Js.parseInt (NilZero.string_of_int (Z.to_int n)) = Some n.
Proof.
  destruct n as [|p|p]; [reflexivity| |];
    cbn [Z.to_int NilZero.string_of_int];
    pose proof (DecimalPos.Unsigned.of_to p) as Hp;
    assert (Pos.to_uint p <> Decimal.Nil) as Hd
      by (intros E; rewrite E in Hp; discriminate Hp);
    destruct (parseInt_digits _ Hd) as [Hplus Hminus];
    rewrite uint_value_zero, Hp in Hplus, Hminus;
    unfold NilZero.string_of_uint;
    destruct (Pos.to_uint p); try contradiction; assumption.
Qed.

(** X18. A reset time written in decimal notation sets the gate to that
    time: when [X-RateLimit-Remaining] is [0] and [X-RateLimit-Reset] is
    the decimal numeral of the integer [T], the clock being in the range of
    [Date.now()], the rest of [#request] sets a new gate that settles at
    [T * 1000] when that time has not come yet and is no further away than
    the timer can wait for ([2^31 - 1] ms); when that time has come, it
    leaves the client as it is. *)
Theorem decimal_reset_time_is_read (r : Response) (s : State) (T : Z) :
  Js.headers_get (resp_headers r) "X-RateLimit-Remaining" = Some "0" ->
  Js.headers_get (resp_headers r) "X-RateLimit-Reset"
    = Some (NilZero.string_of_int (Z.to_int T)) ->
  Z.abs (Js.clock (rt s)) <= 8640000000000000 ->
  (Js.clock (rt s) < T * 1000 <= Js.clock (rt s) + timer_max ->
   rateLimitDelay (this (snd (inspect r s))) =
   Js.mkPromise (Js.next_pid (rt s)) (Some (T * 1000))) /\
  (T * 1000 <= Js.clock (rt s) -> this (snd (inspect r s)) = this s).
Proof.
  intros Hrem Hreset _.
  assert (cooldown r (Js.clock (rt s)) =
          if 0 <? T * 1000 - Js.clock (rt s)
          then Some (T * 1000 - Js.clock (rt s)) else None) as Hcool.
  { unfold cooldown. rewrite Hrem, Hreset, parseInt_decimal. reflexivity. }
  split; intros Ht.
  - destruct (Z.ltb_spec 0 (T * 1000 - Js.clock (rt s))); [|lia].
    rewrite (gate_after_cooldown r s _ Hcool). f_equal. f_equal. lia.
  - destruct (Z.ltb_spec 0 (T * 1000 - Js.clock (rt s))); [lia|].
    exact (client_without_cooldown r s Hcool).
Qed.

End Decimal.

(* ===================================================================== *)
(** ** The further statements at work                                     *)
(* ===================================================================== *)

(** A client constructed at time 100 and called 50 ms later sends at 150. *)
Lemma first_request_at_fixture :
  let env := Sample.serve Sample.found in
  let s := elapse 50 (boot (mkOptions None) 100) in
  let e := ViaGet "artist" None in
  wire (snd (invoke env e s)) = (wire s ++ [Fixture.sent_at_time 150])%list /\
  sent_at (Fixture.sent_at_time 150) = 100 + Z.of_N 50.
Proof.
  intros env s e.
  assert (wire (snd (invoke env e s)) = (wire s ++ [Fixture.sent_at_time 150])%list)
    as H by reflexivity.
  split; [exact H|].
  exact (proj2 (first_request_is_not_delayed env (mkOptions None) 100 50%N e
                  (Fixture.sent_at_time 150) H)).
Defined.

(** [lookup] with the identifier [x] sends nothing and changes nothing. *)
Lemma nothing_sent_at_fixture :
  let env := Sample.serve Sample.found in
  let e := ViaLookup Artist "x" None in
  wire (snd (invoke env e Sample.start)) = wire Sample.start /\
  snd (invoke env e Sample.start) = Sample.start.
Proof.
  intros env e.
  assert (wire (snd (invoke env e Sample.start)) = wire Sample.start) as H
    by reflexivity.
  split; [exact H|].
  exact (call_without_request_changes_nothing env e Sample.start H).
Defined.

(** On a network that is down, [get] fails with the error of [fetch]. *)
Lemma offline_at_fixture :
  let env := Fixture.offline in
  let e := ViaGet "artist" None in
  wire (snd (invoke env e Sample.start)) =
    (wire Sample.start ++ [Fixture.sent_at_time 0])%list /\
  fst (network env (wire Sample.start) (Fixture.sent_at_time 0)) =
    Failed (TypeError "network down") /\
  fst (invoke env e Sample.start) = Returned (Rejected (TypeError "network down")).
Proof.
  intros env e.
  assert (wire (snd (invoke env e Sample.start)) =
          (wire Sample.start ++ [Fixture.sent_at_time 0])%list) as H1
    by reflexivity.
  assert (fst (network env (wire Sample.start) (Fixture.sent_at_time 0)) =
          Failed (TypeError "network down")) as H2 by reflexivity.
  split; [exact H1|]. split; [exact H2|].
  exact (proj1 (transport_failure_propagates env e Sample.start
                  (Fixture.sent_at_time 0) (TypeError "network down") H1 H2)).
Defined.

(** A body that is not JSON fails the call with the error of [json()]. *)
Lemma garbled_at_fixture :
  let env := Sample.serve Fixture.garbled in
  let e := ViaPost "artist" Js.JNull in
  exchanged env Sample.start (snd (invoke env e Sample.start))
            Fixture.post_sent Fixture.garbled /\
  json Fixture.garbled = inl (Foreign "Unexpected token <") /\
  fst (invoke env e Sample.start) =
    Returned (Rejected (Foreign "Unexpected token <")).
Proof.
  intros env e.
  assert (exchanged env Sample.start (snd (invoke env e Sample.start))
            Fixture.post_sent Fixture.garbled) as H1 by (split; reflexivity).
  assert (json Fixture.garbled = inl (Foreign "Unexpected token <")) as H2
    by reflexivity.
  split; [exact H1|]. split; [exact H2|].
  exact (decode_failure_propagates env e Sample.start Fixture.post_sent
           Fixture.garbled (Foreign "Unexpected token <") H1 H2).
Defined.

(** The call that failed on the garbled body has set the gate to time
    2000 all the same. *)
Lemma cooldown_despite_failure_at_fixture :
  let env := Sample.serve Fixture.garbled in
  let e := ViaPost "artist" Js.JNull in
  let s' := snd (invoke env e Sample.start) in
  exchanged env Sample.start s' Fixture.post_sent Fixture.garbled /\
  throttles Fixture.garbled (Js.clock (rt s')) 2 /\
  2 * 1000 - Js.clock (rt s') <= timer_max /\
  Js.settles (rateLimitDelay (this s')) = Some 2000.
Proof.
  intros env e s'.
  assert (exchanged env Sample.start s' Fixture.post_sent Fixture.garbled) as H1
    by (split; reflexivity).
  assert (throttles Fixture.garbled (Js.clock (rt s')) 2) as H2
    by (exists "0", "2"; repeat split).
  assert (2 * 1000 - Js.clock (rt s') <= timer_max) as Hb
    by (repeat split; vm_compute; try reflexivity; discriminate).
  split; [exact H1|]. split; [exact H2|]. split; [exact Hb|].
  exact (proj1 (failed_call_still_sets_cooldown env e Sample.start
                  Fixture.post_sent Fixture.garbled 2 H1 H2 Hb)).
Defined.

(** The payload that [lookup] returned was the body of a response. *)
Lemma success_at_fixture :
  let env := Sample.serve Sample.found in
  let e := ViaLookup Recording Sample.mbid None in
  fst (invoke env e Sample.start) = Returned (Fulfilled Fixture.payload) /\
  exists sent r,
    exchanged env Sample.start (snd (invoke env e Sample.start)) sent r /\
    json r = inr Fixture.payload /\ isError env Fixture.payload = false.
Proof.
  intros env e.
  assert (fst (invoke env e Sample.start) = Returned (Fulfilled Fixture.payload))
    as H by reflexivity.
  split; [exact H|].
  exact (proj1 (success_is_a_decoded_payload env e Sample.start Fixture.payload)
           H).
Defined.

(** The call after a throttled one, made 100 ms later, is sent at 1000. *)
Lemma next_call_at_fixture :
  let env := Sample.serve Sample.throttled in
  let e := ViaGet "artist" None in
  let s1 := snd (invoke env e Sample.start) in
  let s2 := elapse 100 s1 in
  exchanged env Sample.start s1 (Fixture.sent_at_time 0) Sample.throttled /\
  throttles Sample.throttled (Js.clock (rt s1)) 1 /\
  1 * 1000 - Js.clock (rt s1) <= timer_max /\
  wire (snd (invoke env e s2)) = (wire s2 ++ [Fixture.sent_at_time 1000])%list /\
  Js.clock (rt s2) = 125 /\
  sent_at (Fixture.sent_at_time 1000) = Z.max (Js.clock (rt s2)) (1 * 1000).
Proof.
  intros env e s1 s2.
  assert (exchanged env Sample.start s1 (Fixture.sent_at_time 0) Sample.throttled)
    as H1 by (split; reflexivity).
  assert (throttles Sample.throttled (Js.clock (rt s1)) 1) as H2
    by (exists "0", "1"; repeat split).
  assert (wire (snd (invoke env e s2)) =
          (wire s2 ++ [Fixture.sent_at_time 1000])%list) as H3 by reflexivity.
  assert (1 * 1000 - Js.clock (rt s1) <= timer_max) as Hb
    by (repeat split; vm_compute; try reflexivity; discriminate).
  split; [exact H1|]. split; [exact H2|]. split; [exact Hb|].
  split; [exact H3|]. split; [reflexivity|].
  exact (proj1 (next_call_waits_for_reset env e e Sample.start
                  (Fixture.sent_at_time 0) (Fixture.sent_at_time 1000)
                  Sample.throttled 1 100%N H1 H2 Hb H3)).
Defined.

(** [post] sends the resolved URL, the method and the serialized data. *)
Lemma post_at_fixture :
  let env := Sample.serve Sample.found in
  wire (snd (post env "artist" Js.JNull Sample.start)) =
    (wire Sample.start ++ [Fixture.post_sent])%list /\
  new_URL env "artist" (apiBaseUrl (this Sample.start)) =
    inr (sent_url Fixture.post_sent) /\
  sent_init Fixture.post_sent =
    mkInit "POST" (headers (this Sample.start)) (Some (stringify env Js.JNull)).
Proof.
  intros env.
  assert (wire (snd (post env "artist" Js.JNull Sample.start)) =
          (wire Sample.start ++ [Fixture.post_sent])%list) as H by reflexivity.
  split; [exact H|].
  exact (proj1 (resolved_url_is_sent_as_it_is env "artist" Sample.start
                  Fixture.post_sent) Js.JNull H).
Defined.

(** A mapping whose only value is [undefined] removes the query that the
    endpoint carried; the fragment stays. *)
Lemma old_query_at_fixture :
  let q := [("offset", QUndefined)] in
  wire (snd (get Fixture.env_old "artist?query=x#top" (Some q) Sample.start)) =
    (wire Sample.start ++ [Fixture.old_sent])%list /\
  forallb (fun kv => negb (defined (snd kv))) q = true /\
  Js.query (sent_url Fixture.old_sent) = None.
Proof.
  intros q.
  assert (wire (snd (get Fixture.env_old "artist?query=x#top" (Some q)
                         Sample.start)) =
          (wire Sample.start ++ [Fixture.old_sent])%list) as H1 by reflexivity.
  assert (forallb (fun kv => negb (defined (snd kv))) q = true) as H2
    by reflexivity.
  split; [exact H1|]. split; [exact H2|].
  destruct (query_mapping_replaces_query Fixture.env_old "artist?query=x#top" q
              Sample.start Fixture.old_sent H1)
    as (u & _ & _ & _ & _ & _ & _ & Hq).
  exact (proj1 (Hq H2)).
Defined.

(** Equal paths name the same entity. *)
Lemma same_path_at_fixture :
  Js.join "/" [entity_name Release; "a"] = Js.join "/" [entity_name Release; "a"] /\
  (Release = Release /\ "a" = "a").
Proof.
  assert (Js.join "/" [entity_name Release; "a"] =
          Js.join "/" [entity_name Release; "a"]) as H by reflexivity.
  split; [exact H|].
  exact (proj2 (lookup_path_names_one_entity Release Release "a" "a") H).
Defined.

(** The includes [artists] and [releases] are read back from the wire. *)
Lemma includes_at_fixture :
  let env := Sample.serve Sample.found in
  let tokens := ["artists"; "releases"] in
  validate env Sample.mbid = true /\
  tokens <> [] /\
  Forall (fun t => all (differs "+") t = true) tokens /\
  wire (snd (lookup env Recording Sample.mbid (Some tokens) Sample.start)) =
    (wire Sample.start ++ [Fixture.includes_sent])%list /\
  map (fun p => (fst p, Js.split_on "+" (snd p)))
      (Js.searchParams (sent_url Fixture.includes_sent)) = [("inc", tokens)].
Proof.
  intros env tokens.
  assert (validate env Sample.mbid = true) as H1 by reflexivity.
  assert (tokens <> []) as H2 by discriminate.
  assert (Forall (fun t => all (differs "+") t = true) tokens) as H3
    by (repeat constructor).
  assert (wire (snd (lookup env Recording Sample.mbid (Some tokens) Sample.start)) =
          (wire Sample.start ++ [Fixture.includes_sent])%list) as H4
    by reflexivity.
  split; [exact H1|]. split; [exact H2|]. split; [exact H3|]. split; [exact H4|].
  exact (includes_read_back_from_request env Recording Sample.mbid tokens
           Sample.start Fixture.includes_sent H1 H2 H3 H4).
Defined.

(** The hyphens of the identifier become underscores; a text of word
    characters is kept. *)
Lemma identifier_at_fixture :
  identifier Recording Sample.mbid None =
    "recording_94ed318a_fd7d_4abc_8491_a35e39f51dca" /\
  all is_word (Js.join "_" [entity_name Artist; "abc"]) = true /\
  identifier Artist "abc" None = Js.join "_" [entity_name Artist; "abc"].
Proof.
  assert (all is_word (Js.join "_" [entity_name Artist; "abc"]) = true) as H
    by reflexivity.
  split; [reflexivity|]. split; [exact H|].
  exact (proj2 (proj2 (identifier_is_made_of_word_characters Artist "abc" None)) H).
Defined.

(** With a malformed identifier [fetchTestdata] is rejected at once. *)
Lemma testdata_at_fixture :
  let env := Sample.serve Sample.found in
  validate env "x" = false /\
  fetchTestdata env Fixture.tools Recording "x" None Sample.start =
    (Rejected (AssertionError "x is not a valid MBID"), Sample.start).
Proof.
  intros env.
  assert (validate env "x" = false) as H by reflexivity.
  split; [exact H|].
  exact (proj2 (testdata_comes_from_a_successful_lookup env Fixture.tools
                  Recording "x" None Sample.start) H).
Defined.

(** Left out, the includes are [never]. *)
Lemma never_at_fixture :
  @None (list string) = None /\ includes_type None = "never".
Proof.
  split; [reflexivity|].
  exact (proj2 (proj1 (includes_type_never_iff_omitted None)) eq_refl).
Defined.

(** The script over the test cases of the source comes to its end, closes
    its output and has written the import line and one text. *)
Lemma script_at_fixture :
  let env := Sample.serve Sample.found in
  fst (main env Fixture.tools 0) = Fulfilled tt /\
  closed (snd (main env Fixture.tools 0)) = true /\
  List.length (writes (snd (main env Fixture.tools 0))) = 2%nat.
Proof.
  intros env.
  assert (fst (main env Fixture.tools 0) = Fulfilled tt) as H by reflexivity.
  split; [exact H|]. split; [|reflexivity].
  exact (proj2 (proj1 (script_closes_only_at_its_end env Fixture.tools 0
                         lookupTestCases)) H).
Defined.

(** The reset time [1] of [Sample.throttled] is read as second 1. *)
Lemma decimal_at_fixture :
  Js.headers_get (resp_headers Sample.throttled) "X-RateLimit-Remaining" = Some "0" /\
  Js.headers_get (resp_headers Sample.throttled) "X-RateLimit-Reset"
    = Some (NilZero.string_of_int (Z.to_int 1)) /\
  Z.abs (Js.clock (rt Sample.start)) <= 8640000000000000 /\
  Js.clock (rt Sample.start) < 1 * 1000 <= Js.clock (rt Sample.start) + timer_max /\
  rateLimitDelay (this (snd (inspect Sample.throttled Sample.start))) =
    Js.mkPromise 1 (Some 1000).
Proof.
  assert (Js.headers_get (resp_headers Sample.throttled) "X-RateLimit-Remaining"
          = Some "0") as H1 by reflexivity.
  assert (Js.headers_get (resp_headers Sample.throttled) "X-RateLimit-Reset"
          = Some (NilZero.string_of_int (Z.to_int 1))) as H2 by reflexivity.
  assert (Z.abs (Js.clock (rt Sample.start)) <= 8640000000000000) as H3
    by (cbn; lia).
  assert (Js.clock (rt Sample.start) < 1 * 1000
          <= Js.clock (rt Sample.start) + timer_max) as H4
    by (repeat split; vm_compute; try reflexivity; discriminate).
  split; [exact H1|]. split; [exact H2|]. split; [exact H3|]. split; [exact H4|].
  exact (proj1 (decimal_reset_time_is_read Sample.throttled Sample.start 1
                  H1 H2 H3) H4).
Defined.

(** With a base URL that does not resolve, [get] is rejected and nothing
    is sent. *)
Lemma unresolved_at_fixture :
  let env := Sample.serve Sample.found in
  let e := ViaGet "artist" None in
  passes_validation env e = true /\
  new_URL env (endpoint_of e) (apiBaseUrl (this Fixture.elsewhere)) =
    inl (TypeError "Invalid URL") /\
  invoke env e Fixture.elsewhere =
    (Returned (Rejected (TypeError "Invalid URL")), Fixture.elsewhere).
Proof.
  intros env e.
  assert (passes_validation env e = true) as H1 by reflexivity.
  assert (new_URL env (endpoint_of e) (apiBaseUrl (this Fixture.elsewhere)) =
          inl (TypeError "Invalid URL")) as H2 by reflexivity.
  split; [exact H1|]. split; [exact H2|].
  exact (unresolved_url_rejects_without_request env e Fixture.elsewhere
           (TypeError "Invalid URL") H1 H2).
Defined.

(** The throttling response leaves two lines on the console. *)
Lemma console_at_fixture :
  let env := Sample.serve Sample.throttled in
  let e := ViaGet "artist" None in
  let s' := snd (invoke env e Sample.start) in
  exchanged env Sample.start s' (Fixture.sent_at_time 0) Sample.throttled /\
  Js.console (rt s') =
    [("X-RateLimit-Remaining", Js.LText "0"); ("Cool down", Js.LNumber 975)].
Proof.
  intros env e s'.
  assert (exchanged env Sample.start s' (Fixture.sent_at_time 0) Sample.throttled)
    as H by (split; reflexivity).
  split; [exact H|].
  exact (proj1 (responses_are_logged env e Sample.start)
           (Fixture.sent_at_time 0) Sample.throttled H).
Defined.
